(** * service_monitor: the config-driven status reporter

    A shallow embedding of [service_monitor/main.go].

    Conventions of the model:
    - A Go [float64] is the rational it denotes ([Q]), and every [float64]
      operation rounds its exact result to binary64 ([round64]: to nearest,
      ties to even, subnormals included). Infinities and NaN do not arise
      in this program and are not modelled. A decimal literal the program
      only stores or compares (the 0, 1 and 0.1 of the gauges) stands as
      written; a literal it computes with stands for its nearest double.
    - Process-wide variables ([serviceStatus], [lastModTime], ...) are the
      fields of an explicit state record.
    - Calls that leave the process (file system, clock, random source,
      logger) are nodes of a program tree; an environment answers them. *)

From Stdlib Require Import ZArith QArith Qabs Ascii String List Sorted Lia Lqa.
From Stdlib Require PrimFloat FloatOps SpecFloat Uint63 Qcanon.
From stdpp Require Import base option gmap strings list fin_maps.

Open Scope string_scope.

(** ** The roster: [type Config struct] *)

Record Config := mkConfig {
  UpServices : list string;
  DownServices : list string
}.

(** ** The labelled gauge: [prometheus.GaugeVec] with the one label [service]

    The vector maps a label value to the value of its child gauge. *)

Module GaugeVec.

(** [MetricVec.Reset]: [for h := range m.metrics { delete(m.metrics, h) }]. *)
Definition Reset (g : gmap string Q) : gmap string Q :=
  foldr delete g (map fst (map_to_list g)).

(** [WithLabelValues(lv)]: the child for [lv], created at 0 when absent.
    The library panics on a label value that is not valid UTF-8; the
    program passes strings of a decoded TOML document and one literal. *)
Definition WithLabelValues (lv : string) (g : gmap string Q) : gmap string Q :=
  match g !! lv with
  | Some _ => g
  | None => <[lv := 0%Q]> g
  end.

(** [WithLabelValues(lv).Set(v)]. *)
Definition Set_ (lv : string) (v : Q) (g : gmap string Q) : gmap string Q :=
  <[lv := v]> (WithLabelValues lv g).

End GaugeVec.

(** ** [updateServiceMetrics] *)

(** The first loop: [for _, service := range config.UpServices]. *)
Definition setUpServices (ups : list string) (g : gmap string Q) : gmap string Q :=
  fold_left (fun acc service => GaugeVec.Set_ service 1%Q acc) ups g.

(** The second loop: [for _, service := range config.DownServices]. *)
Definition setDownServices (downs : list string) (g : gmap string Q) : gmap string Q :=
  fold_left (fun acc service => GaugeVec.Set_ service 0%Q acc) downs g.

Definition updateServiceMetrics (config : Config) (serviceStatus : gmap string Q)
  : gmap string Q :=
  let g0 := GaugeVec.Reset serviceStatus in
  let g1 := setUpServices (UpServices config) g0 in
  setDownServices (DownServices config) g1.

(** ** Values shared with the operating system *)

(** [time.Time]: the three fields that Go's [==] and [!=] compare. *)
Record Time := mkTime { wall : Z; ext : Z; loc : option positive }.

(** The zero value of [time.Time], the initial [lastModTime]. *)
Definition zeroTime : Time := mkTime 0 0 None.

#[global] Instance Time_eq_dec : EqDecision Time.
Proof. solve_decision. Defined.

(** [os.FileInfo], of which the program reads [ModTime()] only. *)
Record FileInfo := mkFileInfo { ModTime : Time }.

Inductive errno := ENOENT | EACCES | EEXIST | ENOTDIR | EISDIR | EROFS | EIO.

#[global] Instance errno_eq_dec : EqDecision errno.
Proof. solve_decision. Defined.

(** A Go [(T, error)] pair: the value when [err == nil], else the error. *)
Inductive result (E A : Type) : Type :=
| Ok (a : A)
| Err (e : E).
Arguments Ok {E A} a.
Arguments Err {E A} e.

(** Go [error] values the program builds or passes on. [Errorf] is
    [fmt.Errorf(prefix + "%w", cause)]. *)
Inductive GoError :=
| PathError (e : errno)
| DecodeError (msg : string)
| Errorf (prefix : string) (cause : GoError).

(** [os.IsNotExist(err)] on the error half of a result; [false] on [nil]. *)
Definition IsNotExist {A : Type} (r : result errno A) : bool :=
  match r with
  | Err ENOENT => true
  | _ => false
  end.

(** Arguments of [log.Printf]. *)
Inductive Arg := AString (s : string) | AInt (n : Z) | AError (e : GoError).

Inductive Goroutine := watchConfig_go | loadSimulator_go.

(** ** Calls that leave the process *)

Inductive Call :=
| Getenv (key : string)
| Stat (name : string)
| MkdirAll (path : string) (perm : Z)
| WriteFile (name : string) (data : string) (perm : Z)
| Open (name : string)
| Close (fd : Z)
| ReadFile (name : string)
| Printf (format : string) (args : list Arg)
| Println (msg : string)
| Sleep (d : Z)
| Float64
| Now
| Lock
| Unlock
| RLock
| RUnlock
| Go (g : Goroutine)
| Handle (pattern : string)
| ListenAndServe (addr : string).

(** What each call hands back. *)
Definition Resp (c : Call) : Type :=
  match c with
  | Getenv _ => string
  | Stat _ => result errno FileInfo
  | MkdirAll _ _ => option errno
  | WriteFile _ _ _ => option errno
  | Open _ => result errno Z
  | Close _ => unit
  | ReadFile _ => result errno string
  | Printf _ _ => unit
  | Println _ => unit
  | Sleep _ => unit
  | Float64 => Q
  | Now => Z
  | Lock => unit
  | Unlock => unit
  | RLock => unit
  | RUnlock => unit
  | Go _ => unit
  | Handle _ => unit
  | ListenAndServe _ => GoError
  end.

(** A program: it returns, asks the environment and goes on with the
    answer, or ends the process ([os.Exit], reached through [log.Fatal]). *)
Inductive Prog (A : Type) : Type :=
| Ret (a : A)
| Vis (c : Call) (k : Resp c -> Prog A)
| Exit (code : Z).
Arguments Ret {A} a.
Arguments Vis {A} c k.
Arguments Exit {A} code.

Fixpoint bind {A B : Type} (p : Prog A) (f : A -> Prog B) : Prog B :=
  match p with
  | Ret a => f a
  | Vis c k => Vis c (fun r => bind (k r) f)
  | Exit code => Exit code
  end.

Definition call (c : Call) : Prog (Resp c) := Vis c Ret.

#[global] Instance Prog_ret : MRet Prog := @Ret.
#[global] Instance Prog_bind : MBind Prog := fun A B f p => bind p f.

(** One answered call. *)
Record Event := Ev { ev_call : Call; ev_resp : Resp ev_call }.

Inductive Outcome (A : Type) : Type :=
| Returned (a : A)
| Exited (code : Z).
Arguments Returned {A} a.
Arguments Exited {A} code.

(** An environment with states [W] answers every call. *)
Definition Env (W : Type) : Type := forall c : Call, W -> Resp c * W.

(** Running a program in an environment: the outcome, the environment's
    final state and the calls made, oldest first. *)
Fixpoint run {W A : Type} (env : Env W) (p : Prog A) (w : W)
  : Outcome A * W * list Event :=
  match p with
  | Ret a => (Returned a, w, [])
  | Exit code => (Exited code, w, [])
  | Vis c k =>
      let '(r, w1) := env c w in
      let '(o, w2, tr) := run env (k r) w1 in
      (o, w2, Ev c r :: tr)
  end.

Definition outcome {W A : Type} (x : Outcome A * W * list Event) : Outcome A := x.1.1.
Definition world {W A : Type} (x : Outcome A * W * list Event) : W := x.1.2.
Definition trace {W A : Type} (x : Outcome A * W * list Event) : list Event := x.2.

(** The calls of a trace, answers dropped. *)
Definition calls (tr : list Event) : list Call := map ev_call tr.

(** ** binary64 arithmetic on the rationals *)

(** The floor of the binary logarithm of [n / d], for [n > 0]. *)
Definition floor_log2 (n : Z) (d : positive) : Z :=
  let k := (Z.log2 n - Z.log2 (Zpos d))%Z in
  if (0 <=? k)%Z
  then (if (Zpos d * 2 ^ k <=? n)%Z then k else k - 1)%Z
  else (if (Zpos d <=? n * 2 ^ (- k))%Z then k else k - 1)%Z.

(** [n / d] rounded to the nearest integer, ties to even; [n >= 0 < d]. *)
Definition round_half_even (n d : Z) : Z :=
  let m := (n / d)%Z in
  match (2 * (n mod d) ?= d)%Z with
  | Lt => m
  | Gt => (m + 1)%Z
  | Eq => if Z.even m then m else (m + 1)%Z
  end.

(** The double nearest to [n / d], for [n > 0]: 53 bits of mantissa at the
    exponent of [n / d], and never below the exponent of the subnormals. *)
Definition round64_pos (n : Z) (d : positive) : Q :=
  let e := Z.max (floor_log2 n d - 52) (-1074) in
  if (0 <=? e)%Z
  then inject_Z (round_half_even n (Zpos d * 2 ^ e) * 2 ^ e)
  else Qred (Qmake (round_half_even (n * 2 ^ (- e)) (Zpos d)) (Z.to_pos (2 ^ (- e)))).

(** Rounding to binary64. *)
Definition round64 (q : Q) : Q :=
  match Qnum q with
  | Z0 => 0
  | Zpos n => round64_pos (Zpos n) (Qden q)
  | Zneg n => Qopp (round64_pos (Zpos n) (Qden q))
  end.

(** A decimal literal of the source, as the compiler reads it. *)
Definition f64 (literal : Q) : Q := round64 literal.

(** [x + y], [x * y] and [x / y] on [float64], and [float64(n)] of an
    integer. *)
Definition fadd (x y : Q) : Q := round64 (x + y).
Definition fmul (x y : Q) : Q := round64 (x * y).
Definition fdiv (x y : Q) : Q := round64 (x / y).
Definition float64_of_int (n : Z) : Q := round64 (inject_Z n).

(** The double nearest to [n / d], for [n > 0], counted in units of
    [2 ^ -1074], the least positive double. *)
Definition ulps (n : Z) (d : positive) : Z :=
  let E := (Z.max (floor_log2 n d - 52) (-1074) + 1074)%Z in
  (round_half_even (n * 2 ^ 1074) (Zpos d * 2 ^ E) * 2 ^ E)%Z.

Arguments round64 : simpl never.
Arguments fadd : simpl never.
Arguments fmul : simpl never.
Arguments fdiv : simpl never.

(** The rational a kernel float denotes, to compare [round64] with the
    binary64 arithmetic of the proof assistant on concrete inputs. *)
Definition exact_of_float (f : PrimFloat.float) : option Q :=
  match FloatOps.Prim2SF f with
  | SpecFloat.S754_zero _ => Some 0%Q
  | SpecFloat.S754_finite s m e =>
      let v := if (0 <=? e)%Z then inject_Z (Zpos m * 2 ^ e)
               else Qred (Qmake (Zpos m) (Z.to_pos (2 ^ (- e)))) in
      Some (if s then Qopp v else v)
  | _ => None
  end.

(** The kernel float [n / d], correctly rounded. *)
Definition float_of_ratio (n d : Z) : PrimFloat.float :=
  PrimFloat.div (PrimFloat.of_uint63 (Uint63.of_Z n))
    (PrimFloat.of_uint63 (Uint63.of_Z d)).

(** The loop of [prometheus.LinearBuckets] on kernel floats. *)
Fixpoint LinearBuckets_loop_float (start width : PrimFloat.float) (count : nat)
  : list PrimFloat.float :=
  match count with
  | O => []
  | S n => start :: LinearBuckets_loop_float (PrimFloat.add start width) width n
  end.

(** ** Metrics other than the labelled gauge *)

(** [prometheus.LinearBuckets(start, width, count)]:
    [for i := range buckets { buckets[i] = start; start += width }]. *)
Fixpoint LinearBuckets_loop (start width : Q) (count : nat) : list Q :=
  match count with
  | O => []
  | S n => start :: LinearBuckets_loop (fadd start width) width n
  end.

(** The library panics when [count < 1]: [None]. *)
Definition LinearBuckets (start width : Q) (count : Z) : option (list Q) :=
  if (count <? 1)%Z then None
  else Some (LinearBuckets_loop start width (Z.to_nat count)).

(** [sort.SearchFloat64s(a, x)]: the least index whose bound is [>= x],
    [len(a)] when there is none. *)
Fixpoint SearchFloat64s (a : list Q) (x : Q) : nat :=
  match a with
  | [] => O
  | b :: a' => if Qle_bool x b then O else S (SearchFloat64s a' x)
  end.

Record Histogram := mkHistogram {
  upperBounds : list Q;
  bucketCounts : list nat;
  sampleSum : Q;
  sampleCount : nat
}.

Definition NewHistogram (buckets : list Q) : Histogram :=
  mkHistogram buckets (replicate (length buckets) O) 0 O.

(** [Histogram.Observe(v)]: one more sample in the bucket of [v] (none
    past the last bound) and in the count, and [v] added to the sum. *)
Definition Observe (v : Q) (h : Histogram) : Histogram :=
  mkHistogram (upperBounds h)
    (alter S (SearchFloat64s (upperBounds h) v) (bucketCounts h))
    (fadd (sampleSum h) v)
    (S (sampleCount h)).

(** [Buckets: prometheus.LinearBuckets(0.01, 0.05, 10)]. *)
Definition requestDuration_Buckets : option (list Q) :=
  LinearBuckets (f64 (1 # 100)) (f64 (5 # 100)) 10.

(** ** The process state: the package-level variables *)

Record State := mkState {
  requestsProcessed : Q;
  requestDuration : Histogram;
  activeRequests : Q;
  errorRate : Q;
  serviceStatus : gmap string Q;
  configPath : string;
  lastModTime : Time
}.

Definition initState : State :=
  mkState 0 (NewHistogram (default [] requestDuration_Buckets)) 0 0 ∅
    "/app/config/config.toml" zeroTime.

Definition set_requestsProcessed (v : Q) (st : State) : State :=
  mkState v (requestDuration st) (activeRequests st) (errorRate st)
    (serviceStatus st) (configPath st) (lastModTime st).
Definition set_requestDuration (h : Histogram) (st : State) : State :=
  mkState (requestsProcessed st) h (activeRequests st) (errorRate st)
    (serviceStatus st) (configPath st) (lastModTime st).
Definition set_activeRequests (v : Q) (st : State) : State :=
  mkState (requestsProcessed st) (requestDuration st) v (errorRate st)
    (serviceStatus st) (configPath st) (lastModTime st).
Definition set_errorRate (v : Q) (st : State) : State :=
  mkState (requestsProcessed st) (requestDuration st) (activeRequests st) v
    (serviceStatus st) (configPath st) (lastModTime st).
Definition set_serviceStatus (g : gmap string Q) (st : State) : State :=
  mkState (requestsProcessed st) (requestDuration st) (activeRequests st)
    (errorRate st) g (configPath st) (lastModTime st).
Definition set_configPath (p : string) (st : State) : State :=
  mkState (requestsProcessed st) (requestDuration st) (activeRequests st)
    (errorRate st) (serviceStatus st) p (lastModTime st).
Definition set_lastModTime (t : Time) (st : State) : State :=
  mkState (requestsProcessed st) (requestDuration st) (activeRequests st)
    (errorRate st) (serviceStatus st) (configPath st) t.

(** ** Durations *)

Definition Second : Z := 1000000000.

(** [time.Duration(x)] of a [float64]: truncation towards zero. *)
Definition Duration_of_float (x : Q) : Z := Z.quot (Qnum x) (Zpos (Qden x)).

(** [d.Seconds()]:
    [sec := d / Second; nsec := d % Second;
     return float64(sec) + float64(nsec)/1e9]. *)
Definition Seconds (d : Z) : Q :=
  fadd (float64_of_int (Z.quot d Second))
    (fdiv (float64_of_int (Z.rem d Second)) 1000000000).

(** ** Strings and constants of [main] *)

(** [strings.LastIndex(s, sep)] for a one-byte [sep]: the index of its
    last occurrence, [-1] when there is none. *)
Fixpoint LastIndex_from (s : string) (sep : Ascii.ascii) (i last : Z) : Z :=
  match s with
  | EmptyString => last
  | String a s' =>
      LastIndex_from s' sep (i + 1) (if Ascii.eqb a sep then i else last)
  end.

Definition LastIndex (s : string) (sep : Ascii.ascii) : Z :=
  LastIndex_from s sep 0 (-1).

Definition nl : string := String "010"%char EmptyString.
Definition quoted (s : string) : string :=
  String "034"%char (s ++ String "034"%char EmptyString).

(** The text written when the config file does not exist. *)
Definition defaultConfig : string :=
  "# Service Monitor Configuration" ++ nl ++
  nl ++
  "# Services that are currently up" ++ nl ++
  "up_services = [" ++ nl ++
  "  " ++ quoted "api-gateway" ++ "," ++ nl ++
  "  " ++ quoted "auth-service" ++ "," ++ nl ++
  "  " ++ quoted "user-service" ++ "," ++ nl ++
  "  " ++ quoted "payment-service" ++ nl ++
  "]" ++ nl ++
  nl ++
  "# Services that are currently down" ++ nl ++
  "down_services = [" ++ nl ++
  "  " ++ quoted "notification-service" ++ "," ++ nl ++
  "  " ++ quoted "recommendation-engine" ++ nl ++
  "]".

(** The roster used when the initial load fails. *)
Definition fallbackConfig : Config := mkConfig ["default-service"] [].

(** ** The program *)

Section Program.

(** [toml.Unmarshal] into a zero [Config], from go-toml: not part of the
    repository, taken as given. *)
Variable Unmarshal : string -> result GoError Config.

(** [loadConfig]. [defer file.Close()] runs on every path after a
    successful [os.Open]. *)
Definition loadConfig (configPath : string) : Prog (result GoError Config) :=
  file ← call (Open configPath);
  match file with
  | Err err => mret (Err (Errorf "error opening config file: " (PathError err)))
  | Ok fd =>
      configData ← call (ReadFile configPath);
      res ← mret
        match configData with
        | Err err => Err (Errorf "error reading config file: " (PathError err))
        | Ok data =>
            match Unmarshal data with
            | Err err => Err (Errorf "error parsing config file: " err)
            | Ok config => Ok config
            end
        end;
      call (Close fd);;
      mret res
  end.

Definition checkInterval : Z := 3 * Second.

(** The branch of [watchConfig] taken when [modTime != lastModTime]. *)
Definition reload (modTime : Time) (st : State) : Prog State :=
  call (Println "Config file changed, reloading...");;
  config ← loadConfig (configPath st);
  match config with
  | Err err =>
      call (Printf "Error loading config: %v" [AError err]);;
      mret st
  | Ok config =>
      call Lock;;
      st1 ← mret (set_serviceStatus (updateServiceMetrics config (serviceStatus st)) st);
      st2 ← mret (set_lastModTime modTime st1);
      call Unlock;;
      call (Printf "Reloaded config: %d up services and %d down services"
              [AInt (Z.of_nat (length (UpServices config)));
               AInt (Z.of_nat (length (DownServices config)))]);;
      mret st2
  end.

(** One turn of the [for] loop of [watchConfig]. *)
Definition watchConfig_iter (st : State) : Prog State :=
  fileInfo ← call (Stat (configPath st));
  match fileInfo with
  | Err err =>
      call (Printf "Error checking config file: %v" [AError (PathError err)]);;
      call (Sleep checkInterval);;
      mret st
  | Ok fileInfo =>
      let modTime := ModTime fileInfo in
      st' ← (if decide (modTime ≠ lastModTime st) then reload modTime st
             else mret st);
      call (Sleep checkInterval);;
      mret st'
  end.

(** The first [n] turns of the loop. *)
Fixpoint watchConfig_loop (n : nat) (st : State) : Prog State :=
  match n with
  | O => mret st
  | S n' => st' ← watchConfig_iter st; watchConfig_loop n' st'
  end.


(** *** [main], up to the first [updateServiceMetrics] *)

(** [if envPath := os.Getenv("CONFIG_PATH"); envPath != "" { ... }]. *)
Definition main_configPath (st : State) : Prog State :=
  envPath ← call (Getenv "CONFIG_PATH");
  if decide (envPath ≠ EmptyString) then
    call (Printf "Using config path from environment: %s" [AString envPath]);;
    mret (set_configPath envPath st)
  else mret st.

(** "Ensure config directory exists". *)
Definition main_ensureDir (st : State) : Prog unit :=
  let lastSlash := LastIndex (configPath st) "/"%char in
  if (0 <? lastSlash)%Z then
    let configDir := substring 0 (Z.to_nat lastSlash) (configPath st) in
    info ← call (Stat configDir);
    if IsNotExist info then
      call (Printf "Config directory %s does not exist, creating it"
              [AString configDir]);;
      err ← call (MkdirAll configDir 493);
      match err with
      | Some e =>
          call (Printf "Error creating config directory: %v" [AError (PathError e)]);;
          mret tt
      | None => mret tt
      end
    else mret tt
  else mret tt.

(** "Check if config file exists, create default if not". *)
Definition main_ensureFile (st : State) : Prog unit :=
  info ← call (Stat (configPath st));
  if IsNotExist info then
    call (Printf "Config file %s does not exist, creating default"
            [AString (configPath st)]);;
    err ← call (WriteFile (configPath st) defaultConfig 420);
    match err with
    | Some e =>
        call (Printf "Error creating default config file: %v" [AError (PathError e)]);;
        mret tt
    | None => mret tt
    end
  else mret tt.

(** "Initial config load". *)
Definition main_initialLoad (st : State) : Prog Config :=
  config ← loadConfig (configPath st);
  match config with
  | Err err =>
      call (Printf "Error loading initial config: %v" [AError err]);;
      mret fallbackConfig
  | Ok config =>
      call (Printf "Loaded initial config with %d up services and %d down services"
              [AInt (Z.of_nat (length (UpServices config)));
               AInt (Z.of_nat (length (DownServices config)))]);;
      mret config
  end.

(** "Set initial last modified time". *)
Definition main_initModTime (st : State) : Prog State :=
  fileInfo ← call (Stat (configPath st));
  match fileInfo with
  | Ok fileInfo => mret (set_lastModTime (ModTime fileInfo) st)
  | Err _ => mret st
  end.

(** Lines 153 to 215 of [main]. *)
Definition main_init (st : State) : Prog State :=
  st ← main_configPath st;
  main_ensureDir st;;
  main_ensureFile st;;
  config ← main_initialLoad st;
  st ← main_initModTime st;
  mret (set_serviceStatus (updateServiceMetrics config (serviceStatus st)) st).

(** The rest of [main]: goroutines and handlers are started, then the
    server runs; [http.ListenAndServe] only ever returns an error, which
    [log.Fatal] prints before [os.Exit(1)]. *)
Definition main (st : State) : Prog State :=
  st ← main_init st;
  call (Go watchConfig_go);;
  call (Handle "/");;
  call (Handle "/config");;
  call (Handle "/metrics");;
  call (Go loadSimulator_go);;
  call (Println "Starting Service Monitor on :8080");;
  err ← call (ListenAndServe ":8080");
  call (Printf "%v" [AError err]);;
  Exit 1.

End Program.

(** ** The handler of [GET /] *)

(** The part of [http.ResponseWriter] the handler drives. *)
Record ResponseWriter := mkResponseWriter {
  wroteHeader : bool;
  status : Z;
  body : string
}.

Definition newResponseWriter : ResponseWriter := mkResponseWriter false 0 EmptyString.

Definition StatusOK : Z := 200.
Definition StatusInternalServerError : Z := 500.

(** [w.WriteHeader(code)]: the first call fixes the status. *)
Definition WriteHeader (code : Z) (w : ResponseWriter) : ResponseWriter :=
  if wroteHeader w then w else mkResponseWriter true code (body w).

(** [w.Write(data)]: sends the header with [StatusOK] when none was sent. *)
Definition Write (data : string) (w : ResponseWriter) : ResponseWriter :=
  let w1 := if wroteHeader w then w else WriteHeader StatusOK w in
  mkResponseWriter (wroteHeader w1) (status w1) (body w1 ++ data).

(** [Gauge.Inc] is [Add(1)] and [Gauge.Dec] is [Add(-1)], on the
    [float64] the gauge holds. *)
Definition Inc (v : Q) : Q := fadd v 1.
Definition Dec (v : Q) : Q := fadd v (-1).

(** [Counter.Inc] adds 1 to the integer part of the counter. *)
Definition Counter_Inc (v : Q) : Q := v + 1.

(** [rand.Float64()] and [time.Now()]. *)
Definition rand_Float64 : Prog Q := call Float64.
Definition time_Now : Prog Z := call Now.

(** The statements of the handler between the two [defer]s and its return. *)
Definition health_body (st : State) (w : ResponseWriter)
  : Prog (State * ResponseWriter) :=
  r ← rand_Float64;
  let processingTime := fmul r (5 # 10) in
  call (Sleep (Duration_of_float (fmul processingTime (float64_of_int Second))));;
  r ← rand_Float64;
  if Qlt_le_dec r (1 # 10) then
    st ← mret (set_errorRate (1 # 10) st);
    w ← mret (WriteHeader StatusInternalServerError w);
    w ← mret (Write "Internal Server Error" w);
    mret (st, w)
  else
    st ← mret (set_errorRate 0 st);
    w ← mret (Write "Service Monitor is running!" w);
    mret (st, w).

(** The second [defer]: it runs first when the handler returns. *)
Definition health_deferred_observe (start : Z) (st : State) : Prog State :=
  now ← time_Now;
  let duration := Seconds (now - start) in
  st ← mret (set_requestDuration (Observe duration (requestDuration st)) st);
  mret (set_requestsProcessed (Counter_Inc (requestsProcessed st)) st).

(** The first [defer], [activeRequests.Dec()]: it runs last. *)
Definition health_deferred_dec (st : State) : State :=
  set_activeRequests (Dec (activeRequests st)) st.

Definition healthHandler (st : State) (w : ResponseWriter)
  : Prog (State * ResponseWriter) :=
  st ← mret (set_activeRequests (Inc (activeRequests st)) st);
  start ← time_Now;
  '(st, w) ← health_body st w;
  st ← health_deferred_observe start st;
  mret (health_deferred_dec st, w).


(** ** The handler of [GET /config] *)

Section ConfigDump.

Variable Unmarshal : string -> result GoError Config.

(** [fmt.Sprintf], from Go's library: taken as given. *)
Variable Sprintf : string -> list Arg -> string.

(** [fmt.Fprintf(w, format, args...)]. *)
Definition Fprintf (w : ResponseWriter) (format : string) (args : list Arg)
  : ResponseWriter :=
  Write (Sprintf format args) w.

(** The two listings of a loaded roster. *)
Definition dump (config : Config) (w : ResponseWriter) : ResponseWriter :=
  let w := Fprintf w ("UP SERVICES (%d):" ++ nl)
             [AInt (Z.of_nat (length (UpServices config)))] in
  let w := fold_left (fun w svc => Fprintf w ("- %s" ++ nl) [AString svc])
             (UpServices config) w in
  let w := Fprintf w (nl ++ "DOWN SERVICES (%d):" ++ nl)
             [AInt (Z.of_nat (length (DownServices config)))] in
  fold_left (fun w svc => Fprintf w ("- %s" ++ nl) [AString svc])
    (DownServices config) w.

(** The handler loads the file itself, under the read lock;
    [defer configMutex.RUnlock()] runs on both paths. *)
Definition configHandler (st : State) (w : ResponseWriter) : Prog ResponseWriter :=
  call RLock;;
  config ← loadConfig Unmarshal (configPath st);
  w ← mret
    match config with
    | Err err =>
        Fprintf (WriteHeader StatusInternalServerError w)
          "Error loading config: %v" [AError err]
    | Ok config => dump config w
    end;
  call RUnlock;;
  mret w.

End ConfigDump.

(** The bound of bucket [i] as the histogram's documentation gives it. *)
Definition bucket_bound (i : nat) : Q :=
  (1 # 100) + (5 # 100) * inject_Z (Z.of_nat i).


(** ** Reading traces *)

Definition is_Open (c : Call) : bool :=
  match c with
  | Open _ => true
  | _ => false
  end.

(** How many times a trace calls [os.Open]. *)
Definition count_opens (tr : list Event) : nat :=
  length (List.filter is_Open (calls tr)).

(** The answer, when the event is a call of [rand.Float64]. *)
Definition draw_of (e : Event) : option Q :=
  match e with
  | Ev c r =>
      match c return Resp c -> option Q with
      | Float64 => fun r => Some r
      | _ => fun _ => None
      end r
  end.

(** The random draws of a trace, oldest first. *)
Definition draws (tr : list Event) : list Q := omap draw_of tr.

(** [os.Stat(name)] answered with an error for which [os.IsNotExist] holds. *)
Definition stat_absent (name : string) (e : Event) : bool :=
  match e with
  | Ev c r =>
      match c return Resp c -> bool with
      | Stat q => fun r => String.eqb q name && IsNotExist r
      | _ => fun _ => false
      end r
  end.

(** ** The error kinds of the specification *)

Inductive Failure := IOFailure | ParseFailure.

(** The specification's kind of an error of [loadConfig], read off the
    message the error was wrapped in. *)
Definition failure_kind (e : GoError) : option Failure :=
  match e with
  | Errorf prefix _ =>
      if String.eqb prefix "error opening config file: " then Some IOFailure
      else if String.eqb prefix "error reading config file: " then Some IOFailure
      else if String.eqb prefix "error parsing config file: " then Some ParseFailure
      else None
  | _ => None
  end.

(** ** A decoder for the rosters the program writes

    The fragment of TOML of [defaultConfig]: comments, bare keys, and
    arrays of basic strings without escapes. It instantiates [Unmarshal]
    in the examples; the theorems hold for every decoder. *)

Module Toml.

Inductive token :=
| TKey (s : string)
| TEq
| TLBracket
| TRBracket
| TComma
| TString (s : string).

Inductive mode :=
| Blank
| Comment
| InKey (acc : string)
| InString (acc : string).

Definition between (lo hi : nat) (c : ascii) : bool :=
  (lo <=? nat_of_ascii c)%nat && (nat_of_ascii c <=? hi)%nat.

Definition is_bare (c : ascii) : bool :=
  between 48 57 c || between 65 90 c || between 97 122 c
  || Ascii.eqb c "-" || Ascii.eqb c "_".

Definition is_space (c : ascii) : bool :=
  Ascii.eqb c " " || Ascii.eqb c "009" || Ascii.eqb c "010" || Ascii.eqb c "013".

Definition snoc (acc : string) (c : ascii) : string :=
  acc ++ String c EmptyString.

(** A byte read outside of any key, string or comment; [k] lexes the rest. *)
Definition lex_blank (c : ascii) (k : mode -> option (list token))
  : option (list token) :=
  if is_space c then k Blank
  else if Ascii.eqb c "#" then k Comment
  else if Ascii.eqb c "=" then cons TEq <$> k Blank
  else if Ascii.eqb c "[" then cons TLBracket <$> k Blank
  else if Ascii.eqb c "]" then cons TRBracket <$> k Blank
  else if Ascii.eqb c "," then cons TComma <$> k Blank
  else if Ascii.eqb c "034" then k (InString EmptyString)
  else if is_bare c then k (InKey (String c EmptyString))
  else None.

Fixpoint lex (s : string) (m : mode) : option (list token) :=
  match s with
  | EmptyString =>
      match m with
      | Blank | Comment => Some []
      | InKey acc => Some [TKey acc]
      | InString _ => None
      end
  | String c s' =>
      match m with
      | Blank => lex_blank c (lex s')
      | Comment => if Ascii.eqb c "010" then lex s' Blank else lex s' Comment
      | InKey acc =>
          if is_bare c then lex s' (InKey (snoc acc c))
          else cons (TKey acc) <$> lex_blank c (lex s')
      | InString acc =>
          if Ascii.eqb c "034" then cons (TString acc) <$> lex s' Blank
          else if Ascii.eqb c "\" || Ascii.eqb c "010" then None
          else lex s' (InString (snoc acc c))
      end
  end.

Inductive pstate :=
| Top
| AfterKey (k : string)
| AfterEq (k : string)
| InArray (k : string) (items : list string) (want_item : bool).

Definition has_key (k : string) (kvs : list (string * list string)) : bool :=
  existsb (fun kv => String.eqb kv.1 k) kvs.

Fixpoint parse (ts : list token) (st : pstate) (kvs : list (string * list string))
  : option (list (string * list string)) :=
  match ts with
  | [] =>
      match st with
      | Top => Some kvs
      | _ => None
      end
  | t :: ts' =>
      match st, t with
      | Top, TKey k => if has_key k kvs then None else parse ts' (AfterKey k) kvs
      | AfterKey k, TEq => parse ts' (AfterEq k) kvs
      | AfterEq k, TLBracket => parse ts' (InArray k [] true) kvs
      | InArray k items true, TString s => parse ts' (InArray k (items ++ [s]) false) kvs
      | InArray k items false, TComma => parse ts' (InArray k items true) kvs
      | InArray k items _, TRBracket => parse ts' Top (kvs ++ [(k, items)])
      | _, _ => None
      end
  end.

Fixpoint get (k : string) (kvs : list (string * list string)) : list string :=
  match kvs with
  | [] => []
  | (k', v) :: kvs' => if String.eqb k' k then v else get k kvs'
  end.

(** Keys other than the two of [Config] are skipped, as go-toml does. *)
Definition Unmarshal (data : string) : result GoError Config :=
  match lex data Blank ≫= (fun ts => parse ts Top []) with
  | Some kvs => Ok (mkConfig (get "up_services" kvs) (get "down_services" kvs))
  | None => Err (DecodeError "toml: invalid document")
  end.

End Toml.

(** ** A simulated environment

    A small file system, a clock and a supply of random draws: one
    environment among those the theorems quantify over, used to run the
    program on concrete inputs. *)

Module Sim.

Inductive Node :=
| RegularFile (modTime : Time) (data : string)
| Directory (modTime : Time).

Record World := mkWorld {
  nodes : gmap string Node;
  environ : gmap string string;
  clock : Z;
  random : list Q
}.

(** [time.Unix(sec, nsec)] in the local zone, as [ModTime()] builds it. *)
Definition Unix (ns : Z) : Time :=
  mkTime (ns mod Second) (ns / Second + 62135596800) (Some 1%positive).

Definition mtime (n : Node) : Time :=
  match n with
  | RegularFile t _ => t
  | Directory t => t
  end.

Definition set_nodes (ns : gmap string Node) (w : World) : World :=
  mkWorld ns (environ w) (clock w) (random w).

(** The directory a path lies in, when the path has one. *)
Definition parent (name : string) : option string :=
  let i := LastIndex name "/" in
  if (0 <? i)%Z then Some (substring 0 (Z.to_nat i) name) else None.

Definition parent_ok (name : string) (w : World) : bool :=
  match parent name with
  | None => true
  | Some d =>
      match nodes w !! d with
      | Some (Directory _) => true
      | _ => false
      end
  end.

Definition env : Env World := fun c =>
  match c return World -> Resp c * World with
  | Getenv key => fun w => (default EmptyString (environ w !! key), w)
  | Stat name => fun w =>
      (match nodes w !! name with
       | Some n => Ok (mkFileInfo (mtime n))
       | None => Err ENOENT
       end, w)
  | MkdirAll path _ => fun w =>
      match nodes w !! path with
      | Some (Directory _) => (None, w)
      | Some (RegularFile _ _) => (Some ENOTDIR, w)
      | None => (None, set_nodes (<[path := Directory (Unix (clock w))]> (nodes w)) w)
      end
  | WriteFile name data _ => fun w =>
      match nodes w !! name with
      | Some (Directory _) => (Some EISDIR, w)
      | _ =>
          if parent_ok name w then
            (None, set_nodes (<[name := RegularFile (Unix (clock w)) data]> (nodes w)) w)
          else (Some ENOENT, w)
      end
  | Open name => fun w =>
      (match nodes w !! name with
       | Some _ => Ok 3%Z
       | None => Err ENOENT
       end, w)
  | Close _ => fun w => (tt, w)
  | ReadFile name => fun w =>
      (match nodes w !! name with
       | Some (RegularFile _ data) => Ok data
       | Some (Directory _) => Err EISDIR
       | None => Err ENOENT
       end, w)
  | Printf _ _ => fun w => (tt, w)
  | Println _ => fun w => (tt, w)
  | Sleep d => fun w => (tt, mkWorld (nodes w) (environ w) (clock w + d) (random w))
  | Float64 => fun w =>
      (hd 0%Q (random w), mkWorld (nodes w) (environ w) (clock w) (tl (random w)))
  | Now => fun w => (clock w, w)
  | Lock => fun w => (tt, w)
  | Unlock => fun w => (tt, w)
  | RLock => fun w => (tt, w)
  | RUnlock => fun w => (tt, w)
  | Go _ => fun w => (tt, w)
  | Handle _ => fun w => (tt, w)
  | ListenAndServe _ => fun w => (PathError EACCES, w)
  end.

(** A machine where only the directory [/app] exists. *)
Definition fresh : World :=
  mkWorld {[ "/app" := Directory (Unix 0) ]} ∅ 1700000000000000000 [].

(** [config.toml] rewritten at time [t] with [data]. *)
Definition edit (t : Z) (data : string) (w : World) : World :=
  mkWorld (<[ "/app/config/config.toml" := RegularFile (Unix t) data ]> (nodes w))
    (environ w) (clock w) (random w).

End Sim.

(** An environment in which the config file always shows the
    modification time [changed] and can never be opened. *)

Module Denied.

Definition changed : Time := Sim.Unix 1700000000000000000.

Definition env : Env unit := fun c =>
  match c return unit -> Resp c * unit with
  | Getenv _ => fun w => (EmptyString, w)
  | Stat _ => fun w => (Ok (mkFileInfo changed), w)
  | MkdirAll _ _ => fun w => (Some EACCES, w)
  | WriteFile _ _ _ => fun w => (Some EACCES, w)
  | Open _ => fun w => (Err EACCES, w)
  | Close _ => fun w => (tt, w)
  | ReadFile _ => fun w => (Err EACCES, w)
  | Printf _ _ => fun w => (tt, w)
  | Println _ => fun w => (tt, w)
  | Sleep _ => fun w => (tt, w)
  | Float64 => fun w => (0%Q, w)
  | Now => fun w => (0%Z, w)
  | Lock => fun w => (tt, w)
  | Unlock => fun w => (tt, w)
  | RLock => fun w => (tt, w)
  | RUnlock => fun w => (tt, w)
  | Go _ => fun w => (tt, w)
  | Handle _ => fun w => (tt, w)
  | ListenAndServe _ => fun w => (PathError EACCES, w)
  end.

End Denied.

(** ** Concrete inputs *)

(** A roster that names [auth-service] in both lists. *)
Definition roster_both : Config :=
  mkConfig ["api-gateway"; "auth-service"] ["auth-service"; "notification-service"].

(** A gauge holding a label of an earlier roster. *)
Definition stale_gauge : gmap string Q := {[ "legacy-service" := 1%Q ]}.

(** The config file last written at time 5, with the default roster, with
    a roster cut short, and replaced by a directory. *)
Definition world_default : Sim.World := Sim.edit 5 defaultConfig Sim.fresh.
Definition world_malformed : Sim.World := Sim.edit 5 "up_services = [" Sim.fresh.
Definition world_directory : Sim.World :=
  Sim.set_nodes
    (<[ "/app/config/config.toml" := Sim.Directory (Sim.Unix 5) ]> (Sim.nodes Sim.fresh))
    Sim.fresh.


(** The state of a process that has seen the file written at time 5. *)
Definition state_seen : State := set_lastModTime (Sim.Unix 5) initState.

(** ** The load simulator of [main]

    One turn of [for { load := rand.Float64() * 10; activeRequests.Set(load);
    time.Sleep(5 * time.Second) }]. *)

Definition loadSimulator_iter (st : State) : Prog State :=
  r ← rand_Float64;
  let load := fmul r 10 in
  st ← mret (set_activeRequests load st);
  call (Sleep (5 * Second));;
  mret st.

(** ** More ways to read a trace *)

(** How many calls of a trace satisfy [p]. *)
Definition count_calls (p : Call -> bool) (tr : list Event) : nat :=
  length (List.filter p (calls tr)).

Definition is_Sleep (c : Call) : bool :=
  match c with
  | Sleep _ => true
  | _ => false
  end.

(** Calls that change the file system. *)
Definition is_mutation (c : Call) : bool :=
  match c with
  | WriteFile _ _ _ | MkdirAll _ _ => true
  | _ => false
  end.

Definition is_lock (c : Call) : bool :=
  match c with
  | Lock | Unlock | RLock | RUnlock => true
  | _ => false
  end.

(** The answer, when the event is a call of [time.Now]. *)
Definition now_of (e : Event) : option Z :=
  match e with
  | Ev c r =>
      match c return Resp c -> option Z with
      | Now => fun r => Some r
      | _ => fun _ => None
      end r
  end.

(** The clock readings of a trace, oldest first. *)
Definition nows (tr : list Event) : list Z := omap now_of tr.

(** An environment in which the config file always shows the modification
    time [Denied.changed] and always reads as [defaultConfig]. *)

Module Steady.

Definition env : Env unit := fun c =>
  match c return unit -> Resp c * unit with
  | Getenv _ => fun w => (EmptyString, w)
  | Stat _ => fun w => (Ok (mkFileInfo Denied.changed), w)
  | MkdirAll _ _ => fun w => (None, w)
  | WriteFile _ _ _ => fun w => (None, w)
  | Open _ => fun w => (Ok 3%Z, w)
  | Close _ => fun w => (tt, w)
  | ReadFile _ => fun w => (Ok defaultConfig, w)
  | Printf _ _ => fun w => (tt, w)
  | Println _ => fun w => (tt, w)
  | Sleep _ => fun w => (tt, w)
  | Float64 => fun w => (0%Q, w)
  | Now => fun w => (0%Z, w)
  | Lock => fun w => (tt, w)
  | Unlock => fun w => (tt, w)
  | RLock => fun w => (tt, w)
  | RUnlock => fun w => (tt, w)
  | Go _ => fun w => (tt, w)
  | Handle _ => fun w => (tt, w)
  | ListenAndServe _ => fun w => (PathError EACCES, w)
  end.

End Steady.

(** Two rosters with the same names, listed in another order and with
    repetitions. *)
Definition roster_listed : Config :=
  mkConfig ["api-gateway"; "auth-service"; "api-gateway"] ["user-service"].
Definition roster_relisted : Config :=
  mkConfig ["auth-service"; "api-gateway"] ["user-service"; "user-service"].

(** The roster of [defaultConfig]. *)
Definition roster_default : Config :=
  mkConfig ["api-gateway"; "auth-service"; "user-service"; "payment-service"]
    ["notification-service"; "recommendation-engine"].

(** The calls the watcher makes. *)
Definition watcher_call (c : Call) : bool :=
  match c with
  | Stat _ | Open _ | ReadFile _ | Close _ => true
  | Printf _ _ | Println _ | Sleep _ | Lock | Unlock => true
  | _ => false
  end.

(** The state after a reload of [config] seen at [modTime]. *)
Definition reloaded (modTime : Time) (config : Config) (st : State) : State :=
  set_lastModTime modTime
    (set_serviceStatus (updateServiceMetrics config (serviceStatus st)) st).

(** The fields the watcher leaves alone. *)
Definition same_but_roster (st st' : State) : Prop :=
  requestsProcessed st' = requestsProcessed st ∧
  requestDuration st' = requestDuration st ∧
  activeRequests st' = activeRequests st ∧
  errorRate st' = errorRate st ∧
  configPath st' = configPath st.

(** ** Lemmas on the gauge vector *)

Lemma foldr_delete_lookup (ks : list string) (g : gmap string Q) (k : string) :
  foldr delete g ks !! k = if decide (k ∈ ks) then None else g !! k.
Proof.
  induction ks as [|a ks IH]; simpl.
  - done.
  - destruct (decide (a = k)) as [->|Hne].
    + rewrite lookup_delete_eq. rewrite decide_True; [done | left].
    + rewrite lookup_delete_ne by done. rewrite IH.
      destruct (decide (k ∈ ks)) as [Hin|Hnin].
      * rewrite decide_True; [done | by right].
      * rewrite decide_False; [done|].
        intros [?|?]%elem_of_cons; congruence.
Qed.

Lemma Reset_empty (g : gmap string Q) : GaugeVec.Reset g = ∅.
Proof.
  apply map_eq. intros k. unfold GaugeVec.Reset.
  rewrite foldr_delete_lookup, lookup_empty.
  destruct (decide (k ∈ map fst (map_to_list g))) as [|H]; [done|].
  destruct (g !! k) as [v|] eqn:E; [|done].
  exfalso. apply H. apply list_elem_of_fmap.
  exists (k, v). split; [done|]. by apply elem_of_map_to_list.
Qed.

Lemma Set_insert (lv : string) (v : Q) (g : gmap string Q) :
  GaugeVec.Set_ lv v g = <[lv := v]> g.
Proof.
  unfold GaugeVec.Set_, GaugeVec.WithLabelValues.
  destruct (g !! lv); [done|]. apply insert_insert_eq.
Qed.

Lemma fold_Set_lookup (v : Q) (names : list string) (g : gmap string Q) (k : string) :
  fold_left (fun acc service => GaugeVec.Set_ service v acc) names g !! k
  = if decide (k ∈ names) then Some v else g !! k.
Proof.
  revert g. induction names as [|a names IH]; intros g; simpl.
  - done.
  - rewrite IH, Set_insert.
    destruct (decide (k ∈ names)) as [Hin|Hnin].
    + rewrite decide_True; [done | by right].
    + destruct (decide (a = k)) as [->|Hne].
      * rewrite lookup_insert_eq. rewrite decide_True; [done | left].
      * rewrite lookup_insert_ne by done.
        rewrite decide_False; [done|].
        intros [?|?]%elem_of_cons; congruence.
Qed.

Lemma updateServiceMetrics_lookup (config : Config) (g : gmap string Q) (k : string) :
  updateServiceMetrics config g !! k =
    if decide (k ∈ DownServices config) then Some 0%Q
    else if decide (k ∈ UpServices config) then Some 1%Q
    else None.
Proof.
  unfold updateServiceMetrics, setDownServices, setUpServices.
  rewrite !fold_Set_lookup, Reset_empty, lookup_empty. done.
Qed.

(** ** The roster applied to the gauge *)

(** C1: for every roster and every prior gauge, the first loop of
    [updateServiceMetrics] leaves 1.0 at every name of the up list, and the
    call leaves 0.0 at every name of the down list; a name of the up list
    keeps its 1.0 when the down list does not hold it, and a name in both
    lists ends at 0.0, the down list being applied last. *)
Theorem updateServiceMetrics_sets (config : Config) (g : gmap string Q) (name : string) :
  (name ∈ UpServices config →
     setUpServices (UpServices config) (GaugeVec.Reset g) !! name = Some 1%Q) ∧
  (name ∈ DownServices config →
     updateServiceMetrics config g !! name = Some 0%Q) ∧
  (name ∈ UpServices config → name ∉ DownServices config →
     updateServiceMetrics config g !! name = Some 1%Q) ∧
  (name ∈ UpServices config → name ∈ DownServices config →
     updateServiceMetrics config g !! name = Some 0%Q).
Proof.
  repeat split.
  - intros Hup. unfold setUpServices.
    rewrite fold_Set_lookup. by rewrite decide_True.
  - intros Hdown. rewrite updateServiceMetrics_lookup. by rewrite decide_True.
  - intros Hup Hdown. rewrite updateServiceMetrics_lookup.
    rewrite decide_False by done. by rewrite decide_True.
  - intros _ Hdown. rewrite updateServiceMetrics_lookup. by rewrite decide_True.
Qed.

(** C2: after [updateServiceMetrics] the labels that carry a value are
    exactly the names of the roster's two lists, whatever the gauge held
    before. *)
Theorem updateServiceMetrics_dom (config : Config) (g : gmap string Q) :
  dom (updateServiceMetrics config g)
  = list_to_set (UpServices config ++ DownServices config).
Proof.
  apply set_eq. intros k.
  rewrite elem_of_dom, elem_of_list_to_set, elem_of_app.
  rewrite updateServiceMetrics_lookup.
  destruct (decide (k ∈ DownServices config)) as [Hd|Hd];
    [|destruct (decide (k ∈ UpServices config)) as [Hu|Hu]].
  - split; [by right | by eexists].
  - split; [by left | by eexists].
  - split; [by intros [? ?] | by intros [?|?]].
Qed.

(** C9: the gauge left by [updateServiceMetrics] depends on the roster
    alone: two prior gauges give the same result. *)
Theorem updateServiceMetrics_prior_independent
  (config : Config) (g1 g2 : gmap string Q) :
  updateServiceMetrics config g1 = updateServiceMetrics config g2.
Proof.
  apply map_eq. intros k. by rewrite !updateServiceMetrics_lookup.
Qed.

(** ** The buckets of the duration histogram *)

Lemma LinearBuckets_loop_length (start width : Q) (count : nat) :
  length (LinearBuckets_loop start width count) = count.
Proof.
  revert start. induction count as [|n IH]; intros start; simpl; [done|].
  by rewrite IH.
Qed.

Lemma LinearBuckets_loop_step
  (count : nat) (start width : Q) (i : nat) (b b' : Q) :
  LinearBuckets_loop start width count !! i = Some b →
  LinearBuckets_loop start width count !! S i = Some b' →
  b' = fadd b width.
Proof.
  revert start i. induction count as [|n IH]; intros start i; [done|].
  destruct i as [|i]; cbn [LinearBuckets_loop lookup list_lookup].
  - intros [= <-]. destruct n as [|n]; [done|]. by intros [= <-].
  - apply IH.
Qed.

(** C8, as the code has it: the duration histogram has exactly 10
    buckets; the first bound is the double 0.01 and every further bound is
    the one before plus the double 0.05, rounded to binary64; each bound
    is within 10^-16 of 0.01 + 0.05 * i, and the bounds increase. *)
Theorem requestDuration_buckets_rounded :
  ∃ bs : list Q,
    requestDuration_Buckets = Some bs ∧
    upperBounds (requestDuration initState) = bs ∧
    length bs = 10%nat ∧
    bs !! 0%nat = Some (f64 (1 # 100)) ∧
    (∀ i b b', bs !! i = Some b → bs !! S i = Some b' →
               b' = fadd b (f64 (5 # 100))) ∧
    Forall2 (fun b i => (Qabs (b - bucket_bound i) < 1 # 10000000000000000)%Q)
      bs (seq 0 10) ∧
    StronglySorted Qlt bs.
Proof.
  exists (LinearBuckets_loop (f64 (1 # 100)) (f64 (5 # 100)) 10).
  split; [reflexivity|]. split; [reflexivity|].
  split; [apply LinearBuckets_loop_length|]. split; [reflexivity|].
  split; [apply LinearBuckets_loop_step|].
  split.
  - vm_compute. repeat constructor.
  - vm_compute. repeat constructor.
Qed.

(** C8 as stated fails: the third bound is the double printed as
    0.11000000000000001, which is neither 0.01 + 0.05 * 2 nor the double
    nearest to it. *)
Lemma requestDuration_buckets_not_linear :
  ∃ b : Q,
    default [] requestDuration_Buckets !! 2%nat = Some b ∧
    b = 3963167672086037 # 36028797018963968 ∧
    ¬ (b == bucket_bound 2)%Q ∧
    b ≠ f64 (bucket_bound 2).
Proof.
  eexists. split; [vm_compute; reflexivity|]. split; [reflexivity|].
  split; vm_compute; discriminate.
Qed.

(** ** Running programs *)

Lemma run_bind {W A B : Type} (env : Env W) (p : Prog A) (f : A → Prog B) (w : W) :
  run env (p ≫= f) w =
    match run env p w with
    | (Returned a, w1, tr1) =>
        let '(o, w2, tr2) := run env (f a) w1 in (o, w2, (tr1 ++ tr2)%list)
    | (Exited code, w1, tr1) => (Exited code, w1, tr1)
    end.
Proof.
  revert w. induction p as [a|c k IH|code]; intros w.
  - change (run env (Ret a ≫= f) w) with (run env (f a) w). simpl.
    by destruct (run env (f a) w) as [[o w2] tr2].
  - change (run env (Vis c k ≫= f) w)
      with (let '(r, w1) := env c w in
            let '(o, w2, tr) := run env (k r ≫= f) w1 in (o, w2, Ev c r :: tr)).
    simpl. destruct (env c w) as [r w1]. rewrite IH.
    destruct (run env (k r) w1) as [[[a|code] w2] tr]; [|done].
    by destruct (run env (f a) w2) as [[o w3] tr2].
  - done.
Qed.

(** Case analysis on the answers of the environment, one call at a time. *)
Ltac ask env :=
  match goal with
  | |- context [env ?c ?w] =>
      let r := fresh "r" in
      let w' := fresh "w" in
      let E := fresh "E" in
      destruct (env c w) as [r w'] eqn:E; cbn in r; cbn [fst snd]
  end.

Lemma run_ret {W A : Type} (env : Env W) (a : A) (w : W) :
  run env (mret a) w = (Returned a, w, []).
Proof. done. Qed.

(** Unfolds [run] over the calls written at the head of a program and
    leaves the programs that have a name as they are. *)
Ltac run_head := cbn [run call bind mbind mret Prog_bind Prog_ret].

Section Watcher.

Context {W : Type} (Unmarshal : string → result GoError Config) (env : Env W).

Lemma loadConfig_returns (path : string) (w : W) :
  ∃ res, outcome (run env (loadConfig Unmarshal path) w) = Returned res.
Proof.
  unfold loadConfig, outcome. cbn.
  ask env. destruct r as [fd|e]; cbn; [|by eexists].
  ask env. ask env. by eexists.
Qed.

Lemma loadConfig_trace_head (path : string) (w : W) :
  ∃ r tl, trace (run env (loadConfig Unmarshal path) w) = Ev (Open path) r :: tl.
Proof.
  unfold loadConfig, trace. run_head. ask env.
  destruct (run env _ w0) as [[o w1] tr]. by do 2 eexists.
Qed.

Lemma loadConfig_count_opens (path : string) (w : W) :
  count_opens (trace (run env (loadConfig Unmarshal path) w)) = 1%nat.
Proof.
  unfold loadConfig, trace, count_opens. cbn.
  ask env. destruct r as [fd|e]; cbn; [|done].
  ask env. by ask env.
Qed.

(** What [reload] returns, by what [loadConfig] returned. *)
Lemma reload_outcome (modTime : Time) (st : State) (w : W) :
  outcome (run env (reload Unmarshal modTime st) w) =
    match outcome (run env (loadConfig Unmarshal (configPath st))
                     (env (Println "Config file changed, reloading...") w).2) with
    | Returned (Ok config) =>
        Returned (set_lastModTime modTime
                    (set_serviceStatus
                       (updateServiceMetrics config (serviceStatus st)) st))
    | Returned (Err _) => Returned st
    | Exited code => Exited code
    end.
Proof.
  unfold reload. run_head.
  destruct (env (Println _) w) as [[] w1]; cbn [fst snd].
  rewrite run_bind. unfold outcome.
  destruct (run env (loadConfig Unmarshal (configPath st)) w1)
    as [[[[config|err]|code] w2] tr]; cbn.
  - ask env. ask env. by ask env.
  - by ask env.
  - done.
Qed.

(** What one turn of the loop returns. *)
Lemma watchConfig_iter_outcome (st : State) (w : W) :
  outcome (run env (watchConfig_iter Unmarshal st) w) =
    match (env (Stat (configPath st)) w).1 with
    | Err _ => Returned st
    | Ok fileInfo =>
        if decide (ModTime fileInfo ≠ lastModTime st)
        then outcome (run env (reload Unmarshal (ModTime fileInfo) st)
                        (env (Stat (configPath st)) w).2)
        else Returned st
    end.
Proof.
  unfold watchConfig_iter. run_head.
  destruct (env (Stat (configPath st)) w) as [[fileInfo|err] w1]; cbn [fst snd].
  - rewrite run_bind. unfold outcome.
    destruct (decide (ModTime fileInfo ≠ lastModTime st)).
    + destruct (run env (reload Unmarshal (ModTime fileInfo) st) w1)
        as [[[st'|code] w2] tr]; cbn; [|done]. by ask env.
    + cbn. by ask env.
  - unfold outcome. cbn. ask env. by ask env.
Qed.

Lemma count_opens_app (tr1 tr2 : list Event) :
  count_opens (tr1 ++ tr2) = (count_opens tr1 + count_opens tr2)%nat.
Proof.
  unfold count_opens, calls.
  by rewrite map_app, List.filter_app, length_app.
Qed.

Lemma reload_count_opens (modTime : Time) (st : State) (w : W) :
  count_opens (trace (run env (reload Unmarshal modTime st) w)) = 1%nat.
Proof.
  unfold reload. run_head.
  destruct (env (Println _) w) as [[] w1].
  rewrite run_bind.
  pose proof (loadConfig_count_opens (configPath st) w1) as Hload.
  destruct (run env (loadConfig Unmarshal (configPath st)) w1)
    as [[[[config|err]|code] w2] tr]; unfold trace in *; cbn [snd] in *.
  - run_head. ask env. ask env. ask env.
    change (count_opens (Ev (Println "Config file changed, reloading...") tt :: ?t))
      with (count_opens t).
    rewrite count_opens_app, Hload. done.
  - run_head. ask env.
    change (count_opens (Ev (Println "Config file changed, reloading...") tt :: ?t))
      with (count_opens t).
    rewrite count_opens_app, Hload. done.
  - exact Hload.
Qed.

(** C4: when [os.Stat] succeeds and reports the modification time held in
    [lastModTime], the turn of the loop returns the state it was given, and
    its only calls are that [os.Stat] and the sleep: nothing is opened,
    read or locked. *)
Theorem watchConfig_iter_no_reload (st : State) (w w1 : W) (fileInfo : FileInfo) :
  env (Stat (configPath st)) w = (Ok fileInfo, w1) →
  ModTime fileInfo = lastModTime st →
  outcome (run env (watchConfig_iter Unmarshal st) w) = Returned st ∧
  calls (trace (run env (watchConfig_iter Unmarshal st) w))
  = [Stat (configPath st); Sleep checkInterval].
Proof.
  intros Hstat Hsame. unfold watchConfig_iter. run_head. rewrite Hstat.
  rewrite decide_False by (intros Hne; by apply Hne).
  run_head. by ask env.
Qed.

(** C3: [loadConfig] returns an error of kind IOFailure when the file
    cannot be opened or cannot be read, and one of kind ParseFailure when
    its content does not decode; and when [loadConfig] returns an error to
    [watchConfig], the turn of the loop returns the state it was given:
    gauge and [lastModTime] are as before. *)
Theorem loadConfig_failure (st : State) (w : W) :
  (∀ e w1,
     env (Open (configPath st)) w = (Err e, w1) →
     ∃ err, outcome (run env (loadConfig Unmarshal (configPath st)) w) = Returned (Err err)
            ∧ failure_kind err = Some IOFailure) ∧
  (∀ fd w1 e w2,
     env (Open (configPath st)) w = (Ok fd, w1) →
     env (ReadFile (configPath st)) w1 = (Err e, w2) →
     ∃ err, outcome (run env (loadConfig Unmarshal (configPath st)) w) = Returned (Err err)
            ∧ failure_kind err = Some IOFailure) ∧
  (∀ fd w1 data w2 e,
     env (Open (configPath st)) w = (Ok fd, w1) →
     env (ReadFile (configPath st)) w1 = (Ok data, w2) →
     Unmarshal data = Err e →
     ∃ err, outcome (run env (loadConfig Unmarshal (configPath st)) w) = Returned (Err err)
            ∧ failure_kind err = Some ParseFailure) ∧
  (∀ fileInfo w1 err,
     env (Stat (configPath st)) w = (Ok fileInfo, w1) →
     ModTime fileInfo ≠ lastModTime st →
     outcome (run env (loadConfig Unmarshal (configPath st))
                (env (Println "Config file changed, reloading...") w1).2)
     = Returned (Err err) →
     outcome (run env (watchConfig_iter Unmarshal st) w) = Returned st).
Proof.
  repeat split.
  - intros e w1 Hopen. unfold loadConfig, outcome. run_head. rewrite Hopen.
    run_head. by eexists.
  - intros fd w1 e w2 Hopen Hread. unfold loadConfig, outcome. run_head.
    rewrite Hopen. run_head. rewrite Hread. run_head. ask env. by eexists.
  - intros fd w1 data w2 e Hopen Hread Hdecode. unfold loadConfig, outcome.
    run_head. rewrite Hopen. run_head. rewrite Hread, Hdecode. run_head.
    ask env. by eexists.
  - intros fileInfo w1 err Hstat Hne Hload.
    rewrite watchConfig_iter_outcome, Hstat. cbn [fst snd].
    rewrite decide_True by done. by rewrite reload_outcome, Hload.
Qed.

Lemma watchConfig_iter_returns (st : State) (w : W) :
  ∃ st', outcome (run env (watchConfig_iter Unmarshal st) w) = Returned st'.
Proof.
  rewrite watchConfig_iter_outcome.
  destruct (env (Stat (configPath st)) w).1 as [fileInfo|err]; [|by eexists].
  destruct (decide (ModTime fileInfo ≠ lastModTime st)); [|by eexists].
  rewrite reload_outcome.
  destruct (loadConfig_returns (configPath st)
              (env (Println "Config file changed, reloading...")
                 (env (Stat (configPath st)) w).2).2) as [[config|err] ->];
    by eexists.
Qed.

Lemma watchConfig_iter_count_opens (st : State) (w : W) :
  count_opens (trace (run env (watchConfig_iter Unmarshal st) w)) =
    match (env (Stat (configPath st)) w).1 with
    | Ok fileInfo => if decide (ModTime fileInfo ≠ lastModTime st) then 1%nat else 0%nat
    | Err _ => 0%nat
    end.
Proof.
  unfold watchConfig_iter. run_head.
  destruct (env (Stat (configPath st)) w) as [[fileInfo|err] w1]; cbn [fst snd].
  - rewrite run_bind.
    destruct (decide (ModTime fileInfo ≠ lastModTime st)).
    + pose proof (reload_count_opens (ModTime fileInfo) st w1) as Hre.
      destruct (run env (reload Unmarshal (ModTime fileInfo) st) w1)
        as [[[st'|code] w2] tr]; unfold trace in *; cbn [snd] in *.
      * run_head. ask env.
        change (count_opens (Ev (Stat (configPath st)) (Ok fileInfo) :: ?t))
          with (count_opens t).
        rewrite count_opens_app, Hre. done.
      * exact Hre.
    + run_head. by ask env.
  - run_head. ask env. by ask env.
Qed.

(** C10: a turn of the loop changes [lastModTime] only when [loadConfig]
    returned a roster in that turn; and while [os.Stat] keeps reporting a
    modification time other than [lastModTime] and [loadConfig] keeps
    failing, every poll leaves the state as it was and opens the file
    again: [n] polls make [n] attempts. *)
Theorem watchConfig_lastModTime (st : State) :
  (∀ w st',
     outcome (run env (watchConfig_iter Unmarshal st) w) = Returned st' →
     lastModTime st' ≠ lastModTime st →
     ∃ fileInfo w1 config,
       env (Stat (configPath st)) w = (Ok fileInfo, w1) ∧
       outcome (run env (loadConfig Unmarshal (configPath st))
                  (env (Println "Config file changed, reloading...") w1).2)
       = Returned (Ok config) ∧
       lastModTime st' = ModTime fileInfo) ∧
  (∀ fileInfo,
     (∀ w, (env (Stat (configPath st)) w).1 = Ok fileInfo) →
     ModTime fileInfo ≠ lastModTime st →
     (∀ w, ∃ err, outcome (run env (loadConfig Unmarshal (configPath st)) w)
                  = Returned (Err err)) →
     ∀ n w,
       outcome (run env (watchConfig_loop Unmarshal n st) w) = Returned st ∧
       count_opens (trace (run env (watchConfig_loop Unmarshal n st) w)) = n).
Proof.
  split.
  - intros w st' Hrun Hchanged.
    rewrite watchConfig_iter_outcome in Hrun.
    destruct (env (Stat (configPath st)) w) as [[fileInfo|err] w1] eqn:Hstat;
      cbn [fst snd] in Hrun; [|by injection Hrun as <-].
    destruct (decide (ModTime fileInfo ≠ lastModTime st)) as [Hne|];
      [|by injection Hrun as <-].
    rewrite reload_outcome in Hrun.
    destruct (outcome (run env (loadConfig Unmarshal (configPath st))
                         (env (Println "Config file changed, reloading...") w1).2))
      as [[config|err]|code] eqn:Hload; [|by injection Hrun as <-|done].
    injection Hrun as <-. by exists fileInfo, w1, config.
  - intros fileInfo Hstat Hne Hfail n.
    induction n as [|n IH]; intros w; [done|].
    cbn [watchConfig_loop]. rewrite run_bind.
    pose proof (watchConfig_iter_outcome st w) as Hout.
    pose proof (watchConfig_iter_count_opens st w) as Hcount.
    rewrite Hstat in Hout, Hcount.
    rewrite decide_True in Hout by done. rewrite decide_True in Hcount by done.
    rewrite reload_outcome in Hout.
    destruct (Hfail (env (Println "Config file changed, reloading...")
                       (env (Stat (configPath st)) w).2).2) as [err Herr].
    rewrite Herr in Hout.
    destruct (run env (watchConfig_iter Unmarshal st) w) as [[o w2] tr].
    unfold outcome, trace in Hout, Hcount. cbn [fst snd] in Hout, Hcount.
    subst o. destruct (IH w2) as [IHo IHc].
    destruct (run env (watchConfig_loop Unmarshal n st) w2) as [[o3 w3] tr3].
    unfold outcome, trace in *. cbn [fst snd] in *.
    split; [done|]. rewrite count_opens_app, Hcount, IHc. done.
Qed.

End Watcher.

(** ** Integers under binary64 rounding *)

Lemma round_half_even_1 (x : Z) : round_half_even x 1 = x.
Proof.
  unfold round_half_even. rewrite Z.div_1_r, Z.mod_1_r. reflexivity.
Qed.

Lemma Qred_scaled (p : positive) (j : Z) :
  (0 <= j)%Z →
  Qred (Qmake (Zpos p * 2 ^ j) (Z.to_pos (2 ^ j))) = inject_Z (Zpos p).
Proof.
  intros Hj.
  assert (0 < 2 ^ j)%Z as Hpow by (apply Z.pow_pos_nonneg; lia).
  rewrite (Qred_complete _ (inject_Z (Zpos p))).
  - apply Qcanon.Qred_identity. simpl. apply Z.gcd_1_r.
  - unfold Qeq, inject_Z. simpl. rewrite Z2Pos.id by lia. lia.
Qed.

Lemma round64_pos_int (p : positive) :
  (Zpos p < 2 ^ 53)%Z → round64_pos (Zpos p) 1 = inject_Z (Zpos p).
Proof.
  intros Hp. unfold round64_pos, floor_log2.
  change (Z.log2 1) with 0%Z. rewrite Z.sub_0_r.
  pose proof (Z.log2_nonneg (Zpos p)) as Hk0.
  pose proof (Z.log2_spec (Zpos p) eq_refl) as [Hlow _].
  assert (Z.log2 (Zpos p) < 53)%Z as Hk by (apply Z.log2_lt_pow2; lia).
  set (k := Z.log2 (Zpos p)) in *.
  rewrite (proj2 (Z.leb_le 0 k)) by lia.
  rewrite (proj2 (Z.leb_le (1 * 2 ^ k) (Zpos p))) by lia.
  rewrite Z.max_l by lia.
  destruct (Z.leb_spec 0 (k - 52)) as [Hge|Hlt].
  - assert (k - 52 = 0)%Z as -> by lia.
    change (1 * 2 ^ 0)%Z with 1%Z. rewrite round_half_even_1.
    f_equal. lia.
  - rewrite round_half_even_1. apply Qred_scaled. lia.
Qed.

(** An integer below 2^53 in size is a double. *)
Lemma round64_int (n : Z) :
  (Z.abs n < 2 ^ 53)%Z → round64 (inject_Z n) = inject_Z n.
Proof.
  intros Hn. destruct n as [|p|p]; [done| |].
  - apply round64_pos_int. lia.
  - unfold round64. cbn [Qnum Qden inject_Z].
    rewrite round64_pos_int by lia. reflexivity.
Qed.


(** ** Rounding is monotone *)

Lemma round_half_even_floor (a b : Z) :
  (0 < b)%Z → (a / b ≤ round_half_even a b ≤ a / b + 1)%Z.
Proof.
  intros Hb. unfold round_half_even.
  destruct (2 * (a mod b) ?= b)%Z; [destruct (Z.even (a / b))| |]; lia.
Qed.

Lemma round_half_even_mono (a b a' b' : Z) :
  (0 < b)%Z → (0 < b')%Z → (a * b' ≤ a' * b)%Z →
  (round_half_even a b ≤ round_half_even a' b')%Z.
Proof.
  intros Hb Hb' Hle.
  pose proof (Z.div_mod a b ltac:(lia)) as Ha.
  pose proof (Z.div_mod a' b' ltac:(lia)) as Ha'.
  pose proof (Z.mod_pos_bound a b Hb) as Hr.
  pose proof (Z.mod_pos_bound a' b' Hb') as Hr'.
  pose proof (round_half_even_floor a b Hb) as Hf.
  pose proof (round_half_even_floor a' b' Hb') as Hf'.
  assert (a / b ≤ a' / b')%Z as Hm.
  { apply Z.div_le_lower_bound; [lia|].
    destruct (Z.le_gt_cases (b' * (a / b)) a') as [|Hgt]; [done|exfalso].
    assert (b * (a / b) ≤ a)%Z by lia.
    assert (a' * b < b' * (a / b) * b)%Z by nia.
    nia. }
  destruct (Z.eq_dec (a / b)%Z (a' / b')%Z) as [Heq|Hne]; [|lia].
  unfold round_half_even in *. rewrite <- Heq in *.
  set (m := (a / b)%Z) in *. set (r := (a mod b)%Z) in *.
  set (r' := (a' mod b')%Z) in *.
  assert (r * b' ≤ r' * b)%Z as Hrr.
  { assert (a * b' = b * m * b' + r * b')%Z as E1 by (rewrite Ha at 1; ring).
    assert (a' * b = b' * m * b + r' * b)%Z as E2 by (rewrite Ha' at 1; ring).
    lia. }
  destruct (Z.compare_spec (2 * r)%Z b) as [E|E|E];
    destruct (Z.compare_spec (2 * r')%Z b') as [E'|E'|E'];
    destruct (Z.even m); try lia; nia.
Qed.

Lemma pow2_pos (x : Z) : (0 ≤ x)%Z → (0 < 2 ^ x)%Z.
Proof. intros. apply Z.pow_pos_nonneg; lia. Qed.

Lemma floor_log2_lower (n : Z) (d : positive) (s : Z) :
  (0 < n)%Z → (0 ≤ s)%Z → (0 ≤ floor_log2 n d + s)%Z →
  (Zpos d * 2 ^ (floor_log2 n d + s) ≤ n * 2 ^ s)%Z.
Proof.
  intros Hn Hs. unfold floor_log2.
  pose proof (Z.log2_spec n Hn) as [Ha _].
  pose proof (Z.log2_spec (Zpos d) eq_refl) as [_ Hb].
  pose proof (Z.log2_nonneg n) as Ha0.
  pose proof (Z.log2_nonneg (Zpos d)) as Hb0.
  set (a := Z.log2 n) in *. set (b := Z.log2 (Zpos d)) in *.
  pose proof (pow2_pos s Hs) as Hps.
  assert (∀ k, k = a - b → 0 ≤ k - 1 + s →
               Zpos d * 2 ^ (k - 1 + s) ≤ n * 2 ^ s)%Z as Hlog.
  { intros k -> Hk.
    pose proof (pow2_pos (a - b - 1 + s) Hk) as Hpk.
    assert (2 ^ Z.succ b * 2 ^ (a - b - 1 + s) = 2 ^ a * 2 ^ s)%Z as E.
    { rewrite <- !Z.pow_add_r by lia. f_equal. lia. }
    nia. }
  destruct (Z.leb_spec 0 (a - b)) as [Hk|Hk].
  - destruct (Z.leb_spec (Zpos d * 2 ^ (a - b)) n) as [Ht|Ht]; intros Hfl.
    + rewrite Z.pow_add_r by lia. nia.
    + by apply Hlog.
  - destruct (Z.leb_spec (Zpos d) (n * 2 ^ (- (a - b)))) as [Ht|Ht]; intros Hfl.
    + assert (2 ^ (- (a - b)) * 2 ^ (a - b + s) = 2 ^ s)%Z as E.
      { rewrite <- Z.pow_add_r by lia. f_equal. lia. }
      pose proof (pow2_pos (a - b + s) Hfl). nia.
    + by apply Hlog.
Qed.

Lemma floor_log2_upper (n : Z) (d : positive) (s : Z) :
  (0 < n)%Z → (0 ≤ s)%Z → (0 ≤ floor_log2 n d + 1 + s)%Z →
  (n * 2 ^ s < Zpos d * 2 ^ (floor_log2 n d + 1 + s))%Z.
Proof.
  intros Hn Hs. unfold floor_log2.
  pose proof (Z.log2_spec n Hn) as [_ Ha].
  pose proof (Z.log2_spec (Zpos d) eq_refl) as [Hb _].
  pose proof (Z.log2_nonneg n) as Ha0.
  pose proof (Z.log2_nonneg (Zpos d)) as Hb0.
  set (a := Z.log2 n) in *. set (b := Z.log2 (Zpos d)) in *.
  pose proof (pow2_pos s Hs) as Hps.
  assert (∀ k, k = a - b → 0 ≤ k + 1 + s →
               n * 2 ^ s < Zpos d * 2 ^ (k + 1 + s))%Z as Hlog.
  { intros k -> Hk.
    pose proof (pow2_pos (a - b + 1 + s) Hk) as Hpk.
    assert (2 ^ b * 2 ^ (a - b + 1 + s) = 2 ^ Z.succ a * 2 ^ s)%Z as E.
    { rewrite <- !Z.pow_add_r by lia. f_equal. lia. }
    nia. }
  destruct (Z.leb_spec 0 (a - b)) as [Hk|Hk].
  - destruct (Z.leb_spec (Zpos d * 2 ^ (a - b)) n) as [Ht|Ht]; intros Hfl.
    + by apply Hlog.
    + replace (a - b - 1 + 1 + s)%Z with (a - b + s)%Z by lia.
      rewrite Z.pow_add_r by lia. nia.
  - destruct (Z.leb_spec (Zpos d) (n * 2 ^ (- (a - b)))) as [Ht|Ht]; intros Hfl.
    + by apply Hlog.
    + replace (a - b - 1 + 1 + s)%Z with (a - b + s)%Z in * by lia.
      assert (2 ^ (- (a - b)) * 2 ^ (a - b + s) = 2 ^ s)%Z as E.
      { rewrite <- Z.pow_add_r by lia. f_equal. lia. }
      pose proof (pow2_pos (a - b + s) Hfl). nia.
Qed.

Lemma round_half_even_scale (a b c : Z) :
  (0 < b)%Z → (0 < c)%Z →
  round_half_even (a * c) (b * c) = round_half_even a b.
Proof.
  intros Hb Hc. unfold round_half_even.
  rewrite Z.div_mul_cancel_r by lia.
  rewrite Z.mul_mod_distr_r by lia.
  rewrite Z.mul_assoc, <- Zmult_compare_compat_r by lia. reflexivity.
Qed.

Lemma round64_pos_ulps (n : Z) (d : positive) :
  (round64_pos n d == Qmake (ulps n d) (Z.to_pos (2 ^ 1074)))%Q.
Proof.
  unfold round64_pos, ulps.
  set (e := Z.max (floor_log2 n d - 52) (-1074)).
  assert (-1074 ≤ e)%Z as He by lia. clearbody e.
  pose proof (pow2_pos 1074 ltac:(lia)) as HP.
  pose proof (pow2_pos (e + 1074) ltac:(lia)) as HE.
  destruct (Z.leb_spec 0 e) as [Hpos|Hneg].
  - pose proof (pow2_pos e Hpos) as Hpe.
    assert (2 ^ (e + 1074) = 2 ^ e * 2 ^ 1074)%Z as HEe
      by (apply Z.pow_add_r; lia).
    rewrite <- (round_half_even_scale n (Zpos d * 2 ^ e) (2 ^ 1074)) by lia.
    rewrite <- Z.mul_assoc, <- HEe.
    unfold Qeq, inject_Z. cbn [Qnum Qden].
    rewrite Z2Pos.id by lia. rewrite HEe. ring.
  - pose proof (pow2_pos (- e) ltac:(lia)) as Hpe.
    assert (2 ^ 1074 = 2 ^ (- e) * 2 ^ (e + 1074))%Z as HEe.
    { rewrite <- Z.pow_add_r by lia. f_equal. lia. }
    rewrite Qred_correct.
    rewrite <- (round_half_even_scale (n * 2 ^ (- e)) (Zpos d) (2 ^ (e + 1074)))
      by lia.
    rewrite <- (Z.mul_assoc n), <- HEe.
    unfold Qeq. cbn [Qnum Qden]. rewrite !Z2Pos.id by lia.
    rewrite HEe at 2. ring.
Qed.

(** [n / d] is below [2 ^ 53] units of its binade, *)
Lemma binade_upper (n : Z) (d : positive) :
  (0 < n)%Z →
  (n * 2 ^ 1074
   < Zpos d * 2 ^ (Z.max (floor_log2 n d - 52) (-1074) + 1074 + 53))%Z.
Proof.
  intros Hn. set (fl := floor_log2 n d).
  destruct (Z.le_gt_cases 0 (fl + 1 + 1074)) as [Hfl|Hfl].
  - pose proof (floor_log2_upper n d 1074 Hn ltac:(lia) Hfl) as Hu. fold fl in Hu.
    assert (2 ^ (fl + 1 + 1074) ≤ 2 ^ (Z.max (fl - 52) (-1074) + 1074 + 53))%Z
      by (apply Z.pow_le_mono_r; lia).
    nia.
  - pose proof (floor_log2_upper n d (- (fl + 1)) Hn ltac:(lia)) as Hu. fold fl in Hu.
    replace (fl + 1 + - (fl + 1))%Z with 0%Z in Hu by lia.
    specialize (Hu ltac:(lia)). change (2 ^ 0)%Z with 1%Z in Hu.
    assert (2 ^ 1074 ≤ 2 ^ (- (fl + 1)))%Z by (apply Z.pow_le_mono_r; lia).
    pose proof (pow2_pos (Z.max (fl - 52) (-1074) + 1074 + 53) ltac:(lia)).
    nia.
Qed.

(** and at least [2 ^ 52] of them above the subnormals. *)
Lemma binade_lower (n : Z) (d : positive) :
  (0 < n)%Z →
  (0 < Z.max (floor_log2 n d - 52) (-1074) + 1074)%Z →
  (Zpos d * 2 ^ (Z.max (floor_log2 n d - 52) (-1074) + 1074 + 52)
   ≤ n * 2 ^ 1074)%Z.
Proof.
  intros Hn. set (fl := floor_log2 n d). intros HE.
  pose proof (floor_log2_lower n d 1074 Hn ltac:(lia)) as Hl. fold fl in Hl.
  replace (Z.max (fl - 52) (-1074) + 1074 + 52)%Z with (fl + 1074)%Z by lia.
  apply Hl. lia.
Qed.

Lemma ulps_nonneg (n : Z) (d : positive) : (0 < n)%Z → (0 ≤ ulps n d)%Z.
Proof.
  intros Hn. unfold ulps.
  set (E := (Z.max (floor_log2 n d - 52) (-1074) + 1074)%Z).
  pose proof (pow2_pos E ltac:(lia)) as HE.
  pose proof (pow2_pos 1074 ltac:(lia)) as HP.
  pose proof (round_half_even_floor (n * 2 ^ 1074) (Zpos d * 2 ^ E) ltac:(lia))
    as [Hf _].
  assert (0 ≤ (n * 2 ^ 1074) / (Zpos d * 2 ^ E))%Z by (apply Z.div_pos; lia).
  nia.
Qed.

Lemma ulps_mono (n : Z) (d : positive) (n' : Z) (d' : positive) :
  (0 < n)%Z → (0 < n')%Z → (n * Zpos d' ≤ n' * Zpos d)%Z →
  (ulps n d ≤ ulps n' d')%Z.
Proof.
  intros Hn Hn' Hle.
  pose proof (binade_upper n d Hn) as Hu. pose proof (binade_lower n d Hn) as Hl.
  pose proof (binade_upper n' d' Hn') as Hu'.
  pose proof (binade_lower n' d' Hn') as Hl'.
  unfold ulps.
  set (E := (Z.max (floor_log2 n d - 52) (-1074) + 1074)%Z) in *.
  set (E' := (Z.max (floor_log2 n' d' - 52) (-1074) + 1074)%Z) in *.
  assert (0 ≤ E)%Z as HE0 by (subst E; lia).
  assert (0 ≤ E')%Z as HE0' by (subst E'; lia).
  clearbody E E'.
  pose proof (pow2_pos 1074 ltac:(lia)) as HP. set (P := (2 ^ 1074)%Z) in *.
  pose proof (pow2_pos E HE0) as HpE. pose proof (pow2_pos E' HE0') as HpE'.
  assert (E ≤ E')%Z as HEE.
  { destruct (Z.le_gt_cases E E') as [|Hgt]; [done|exfalso].
    specialize (Hl ltac:(lia)).
    assert (2 ^ (E' + 53) ≤ 2 ^ (E + 52))%Z by (apply Z.pow_le_mono_r; lia).
    pose proof (pow2_pos (E + 52) ltac:(lia)).
    assert (Zpos d * Zpos d' * 2 ^ (E + 52) ≤ n * Zpos d' * P)%Z by nia.
    assert (n' * Zpos d * P < Zpos d * Zpos d' * 2 ^ (E + 52))%Z by nia.
    nia. }
  destruct (Z.eq_dec E E') as [<-|Hne].
  - apply Z.mul_le_mono_nonneg_r; [lia|].
    apply round_half_even_mono; [lia|lia|]. nia.
  - specialize (Hl' ltac:(lia)).
    pose proof (round_half_even_floor (n * P) (Zpos d * 2 ^ E) ltac:(lia))
      as [_ Hf].
    pose proof (round_half_even_floor (n' * P) (Zpos d' * 2 ^ E') ltac:(lia))
      as [Hf' _].
    assert ((n * P) / (Zpos d * 2 ^ E) < 2 ^ 53)%Z.
    { apply Z.div_lt_upper_bound; [lia|].
      rewrite <- Z.mul_assoc, <- Z.pow_add_r by lia. exact Hu. }
    assert (2 ^ 52 ≤ (n' * P) / (Zpos d' * 2 ^ E'))%Z.
    { apply Z.div_le_lower_bound; [lia|].
      rewrite <- Z.mul_assoc, <- Z.pow_add_r by lia. exact Hl'. }
    assert (2 ^ 53 * 2 ^ E ≤ 2 ^ 52 * 2 ^ E')%Z.
    { rewrite <- !Z.pow_add_r by lia. apply Z.pow_le_mono_r; lia. }
    nia.
Qed.

Lemma round64_pos_nonneg (n : Z) (d : positive) :
  (0 < n)%Z → (0 <= round64_pos n d)%Q.
Proof.
  intros Hn. rewrite round64_pos_ulps. unfold Qle. cbn [Qnum Qden].
  pose proof (ulps_nonneg n d Hn). lia.
Qed.

Lemma round64_pos_mono (n : Z) (d : positive) (n' : Z) (d' : positive) :
  (0 < n)%Z → (0 < n')%Z → (n * Zpos d' ≤ n' * Zpos d)%Z →
  (round64_pos n d <= round64_pos n' d')%Q.
Proof.
  intros Hn Hn' Hle. rewrite !round64_pos_ulps. unfold Qle. cbn [Qnum Qden].
  apply Z.mul_le_mono_nonneg_r; [lia|]. by apply ulps_mono.
Qed.

(** Rounding to binary64 keeps the order. *)
Lemma round64_mono (q q' : Q) : (q <= q')%Q → (round64 q <= round64 q')%Q.
Proof.
  destruct q as [n d], q' as [n' d']. unfold Qle, round64. cbn [Qnum Qden].
  intros Hle.
  assert (∀ (a : Z) (b : positive), (0 < a)%Z → (- round64_pos a b <= 0)%Q)
    as Hneg.
  { intros a b Ha. apply (Qopp_le_compat 0). by apply round64_pos_nonneg. }
  destruct n as [|p|p], n' as [|p'|p'].
  - apply Qle_refl.
  - apply round64_pos_nonneg. lia.
  - exfalso. lia.
  - exfalso. lia.
  - apply round64_pos_mono; lia.
  - exfalso. lia.
  - apply Hneg. lia.
  - apply Qle_trans with 0%Q; [apply Hneg; lia|].
    apply round64_pos_nonneg. lia.
  - apply Qopp_le_compat. apply round64_pos_mono; lia.
Qed.

Lemma round64_nonneg (q : Q) : (0 <= q)%Q → (0 <= round64 q)%Q.
Proof. intros Hq. apply (round64_mono 0 q Hq). Qed.

Lemma fmul_mono (x x' y : Q) :
  (0 <= y)%Q → (x <= x')%Q → (fmul x y <= fmul x' y)%Q.
Proof.
  intros Hy Hx. unfold fmul. apply round64_mono.
  by apply Qmult_le_compat_r.
Qed.

Lemma Duration_of_float_bound (x hi : Q) (k : Z) :
  (0 <= x)%Q → (x <= hi)%Q → (hi < inject_Z k)%Q →
  (0 ≤ Duration_of_float x < k)%Z.
Proof.
  intros H0 Hhi Hk.
  assert (x < inject_Z k)%Q as Hlt by (by apply Qle_lt_trans with hi).
  destruct x as [a b]. unfold Qle, Qlt, Duration_of_float in *.
  cbn [Qnum Qden inject_Z] in *.
  rewrite Z.quot_div_nonneg by lia. split.
  - apply Z.div_pos; lia.
  - apply Z.div_lt_upper_bound; lia.
Qed.

(** ** Rounding errs by at most half a unit *)

Lemma round_half_even_error (a b : Z) :
  (0 < b)%Z → (- b ≤ 2 * (round_half_even a b * b - a) ≤ b)%Z.
Proof.
  intros Hb. unfold round_half_even.
  pose proof (Z.div_mod a b ltac:(lia)) as Ha.
  pose proof (Z.mod_pos_bound a b Hb) as Hr.
  set (m := (a / b)%Z) in *. set (r := (a mod b)%Z) in *.
  destruct (Z.compare_spec (2 * r)%Z b) as [E|E|E];
    [destruct (Z.even m)| |]; nia.
Qed.

Lemma ulps_error (n : Z) (d : positive) :
  (0 < n)%Z → (Zpos d * 2 ^ 52 ≤ n * 2 ^ 1074)%Z →
  (- (n * 2 ^ 1074) ≤ 2 ^ 53 * (ulps n d * Zpos d - n * 2 ^ 1074) ≤ n * 2 ^ 1074)%Z.
Proof.
  intros Hn Hnormal.
  pose proof (binade_lower n d Hn) as Hl. unfold ulps.
  set (E := (Z.max (floor_log2 n d - 52) (-1074) + 1074)%Z) in *.
  assert (0 ≤ E)%Z as HE0 by (subst E; lia). clearbody E.
  pose proof (pow2_pos E HE0) as HpE.
  set (P := (2 ^ 1074)%Z) in *.
  assert (Zpos d * 2 ^ E * 2 ^ 52 ≤ n * P)%Z as Hlow.
  { destruct (Z.eq_dec E 0%Z) as [->|Hne].
    - change (2 ^ 0)%Z with 1%Z. lia.
    - rewrite <- Z.mul_assoc, <- Z.pow_add_r by lia. apply Hl. lia. }
  pose proof (round_half_even_error (n * P) (Zpos d * 2 ^ E) ltac:(lia)) as Herr.
  set (R := round_half_even (n * P) (Zpos d * 2 ^ E)) in *.
  change (2 ^ 53)%Z with (2 * 2 ^ 52)%Z.
  pose proof (pow2_pos 52 ltac:(lia)) as H52. set (T := (2 ^ 52)%Z) in *.
  nia.
Qed.

(** Above the subnormals, rounding errs by at most one part in [2 ^ 53]. *)
Lemma round64_error (q : Q) :
  (1 # 2 ^ 1022 <= q)%Q → (Qabs (round64 q - q) <= q * (1 # 2 ^ 53))%Q.
Proof.
  destruct q as [n d]. intros Hq.
  assert (Zpos d * 2 ^ 52 ≤ n * 2 ^ 1074)%Z as Hnormal.
  { unfold Qle in Hq. cbn [Qnum Qden] in Hq.
    rewrite Pos2Z.inj_pow in Hq.
    change (2 ^ 1074)%Z with (2 ^ 52 * 2 ^ 1022)%Z. 
    set (A := (2 ^ 1022)%Z) in *. lia. }
  assert (0 < n)%Z as Hn.
  { pose proof (pow2_pos 1074 ltac:(lia)). pose proof (pow2_pos 52 ltac:(lia)).
    set (A := (2 ^ 1074)%Z) in *. set (B := (2 ^ 52)%Z) in *. nia. }
  pose proof (ulps_error n d Hn Hnormal) as Herr.
  unfold round64. cbn [Qnum Qden]. destruct n as [|p|p]; [lia| |lia].
  rewrite round64_pos_ulps. apply Qabs_Qle_condition.
  pose proof (pow2_pos 1074 ltac:(lia)) as HP.
  pose proof (pow2_pos 53 ltac:(lia)) as HT.
  unfold Qle, Qminus, Qplus, Qopp, Qmult. cbn [Qnum Qden].
  rewrite !Pos2Z.inj_mul, Pos2Z.inj_pow, Z2Pos.id by lia.
  set (P := (2 ^ 1074)%Z) in *. set (T := (2 ^ 53)%Z) in *.
  set (V := ulps (Zpos p) d) in *.
  change (Z.pos 2 ^ Z.pos 53)%Z with T. nia.
Qed.

(** ** A double rounds to itself *)

Lemma ulps_bound (n : Z) (d : positive) :
  (0 < n)%Z →
  ∃ R E : Z, ulps n d = (R * 2 ^ E)%Z ∧ (0 ≤ E)%Z ∧ (0 ≤ R ≤ 2 ^ 53)%Z.
Proof.
  intros Hn. pose proof (binade_upper n d Hn) as Hu.
  unfold ulps.
  set (E := (Z.max (floor_log2 n d - 52) (-1074) + 1074)%Z) in *.
  assert (0 ≤ E)%Z as HE0 by (subst E; lia). clearbody E.
  pose proof (pow2_pos E HE0) as HpE. pose proof (pow2_pos 1074 ltac:(lia)) as HP.
  exists (round_half_even (n * 2 ^ 1074) (Zpos d * 2 ^ E)), E.
  split; [done|]. split; [done|].
  pose proof (round_half_even_floor (n * 2 ^ 1074) (Zpos d * 2 ^ E) ltac:(lia))
    as [Hf1 Hf2].
  assert (0 ≤ (n * 2 ^ 1074) / (Zpos d * 2 ^ E))%Z by (apply Z.div_pos; lia).
  assert ((n * 2 ^ 1074) / (Zpos d * 2 ^ E) < 2 ^ 53)%Z.
  { apply Z.div_lt_upper_bound; [lia|].
    rewrite <- Z.mul_assoc, <- Z.pow_add_r by lia. exact Hu. }
  lia.
Qed.

Lemma ulps_idem (n : Z) (d : positive) :
  (0 < n)%Z → (0 < ulps n d)%Z →
  ulps (ulps n d) (Z.to_pos (2 ^ 1074)) = ulps n d.
Proof.
  intros Hn HV. destruct (ulps_bound n d Hn) as (R & E & HVR & HE0 & HR).
  set (V := ulps n d) in *.
  pose proof (binade_upper V (Z.to_pos (2 ^ 1074)) HV) as Hu.
  pose proof (binade_lower V (Z.to_pos (2 ^ 1074)) HV) as Hl.
  unfold ulps at 1.
  set (E1 := (Z.max (floor_log2 V (Z.to_pos (2 ^ 1074)) - 52) (-1074) + 1074)%Z)
    in *.
  assert (0 ≤ E1)%Z as HE1 by (subst E1; lia). clearbody E1.
  pose proof (pow2_pos 1074 ltac:(lia)) as HP.
  rewrite Z2Pos.id in * by lia. set (P := (2 ^ 1074)%Z) in *.
  pose proof (pow2_pos E HE0) as HpE. pose proof (pow2_pos E1 HE1) as HpE1.
  assert (∃ c, V = c * 2 ^ E1)%Z as [c Hc].
  { destruct (Z.le_gt_cases E1 E) as [Hle|Hgt].
    - exists (R * 2 ^ (E - E1))%Z.
      rewrite <- Z.mul_assoc, <- Z.pow_add_r by lia.
      rewrite HVR. f_equal. f_equal. lia.
    - exists (2 ^ 52)%Z. specialize (Hl ltac:(lia)).
      assert (2 ^ (E + 53) ≤ 2 ^ (E1 + 52))%Z by (apply Z.pow_le_mono_r; lia).
      assert (R * 2 ^ E ≤ 2 ^ 53 * 2 ^ E)%Z by nia.
      rewrite <- Z.pow_add_r in * by lia.
      replace (53 + E)%Z with (E + 53)%Z in * by lia.
      replace (52 + E1)%Z with (E1 + 52)%Z by lia.
      pose proof (pow2_pos (E1 + 52) ltac:(lia)). nia. }
  rewrite Hc.
  replace (c * 2 ^ E1 * P)%Z with (c * (P * 2 ^ E1))%Z by ring.
  rewrite <- (Z.mul_1_l (P * 2 ^ E1)) at 2.
  rewrite round_half_even_scale by lia.
  by rewrite round_half_even_1.
Qed.

Lemma round64_Qeq (q q' : Q) : (q == q')%Q → (round64 q == round64 q')%Q.
Proof.
  intros Heq. apply Qle_antisym; apply round64_mono; rewrite Heq; apply Qle_refl.
Qed.

Lemma round64_pos_idem (n : Z) (d : positive) :
  (0 < n)%Z → (round64 (round64_pos n d) == round64_pos n d)%Q.
Proof.
  intros Hn. rewrite (round64_Qeq _ _ (round64_pos_ulps n d)), round64_pos_ulps.
  pose proof (ulps_nonneg n d Hn) as HV0. pose proof (ulps_idem n d Hn) as Hid.
  unfold round64. cbn [Qnum Qden].
  destruct (ulps n d) as [|V|V] eqn:EV; [reflexivity| |lia].
  rewrite round64_pos_ulps, Hid by lia. reflexivity.
Qed.

Lemma round64_opp (q : Q) : round64 (- q) = (- round64 q)%Q.
Proof.
  destruct q as [[|p|p] d]; [reflexivity|reflexivity|].
  unfold round64. cbn [Qnum Qden Qopp].
  change (- Z.neg p)%Z with (Z.pos p). cbv iota.
  destruct (round64_pos (Zpos p) d) as [a b]. unfold Qopp. cbn [Qnum Qden].
  by rewrite Z.opp_involutive.
Qed.

(** What [round64] returns is a double: rounding it again changes nothing. *)
Lemma round64_idem (q : Q) : (round64 (round64 q) == round64 q)%Q.
Proof.
  destruct q as [[|p|p] d]; unfold round64 at 2 3; cbn [Qnum Qden].
  - reflexivity.
  - by apply round64_pos_idem.
  - rewrite round64_opp. apply Qopp_comp. by apply round64_pos_idem.
Qed.

Lemma fadd_grows (b width : Q) :
  (round64 b == b)%Q → (0 <= width)%Q → (b <= fadd b width)%Q.
Proof.
  intros Hb Hw. rewrite <- Hb at 1. unfold fadd. apply round64_mono. lra.
Qed.

(** ** The handler of [GET /] *)

Section Health.

Context {W : Type} (env : Env W).

(** C5: on every call of the handler with a fresh response writer, the
    second random draw decides: below 0.1 the error-rate gauge is left at
    0.1 and the response is 500 with body "Internal Server Error";
    otherwise the gauge is left at 0 and the response is 200. *)
Theorem healthHandler_error_rate (st : State) (w : W) :
  ∃ (r1 r2 : Q) (st' : State) (rw' : ResponseWriter),
    outcome (run env (healthHandler st newResponseWriter) w) = Returned (st', rw') ∧
    draws (trace (run env (healthHandler st newResponseWriter) w)) = [r1; r2] ∧
    (((r2 < 1 # 10)%Q ∧ errorRate st' = (1 # 10)%Q ∧
      status rw' = 500%Z ∧ body rw' = "Internal Server Error")
     ∨ ((1 # 10 <= r2)%Q ∧ errorRate st' = 0%Q ∧ status rw' = 200%Z)).
Proof.
  unfold healthHandler, health_body, health_deferred_observe,
    rand_Float64, time_Now, outcome, trace.
  run_head. ask env. ask env. ask env. ask env.
  destruct (Qlt_le_dec r2 (1 # 10)) as [Hlt|Hge]; run_head; ask env.
  - exists r0, r2. do 2 eexists. split; [done|]. split; [done|]. left. done.
  - exists r0, r2. do 2 eexists. split; [done|]. split; [done|]. right. done.
Qed.


End Health.

(** ** Startup *)

Lemma LastIndex_from_bound (s : string) (sep : ascii) (i last : Z) :
  (last < i + Z.of_nat (String.length s))%Z →
  (LastIndex_from s sep i last < i + Z.of_nat (String.length s))%Z.
Proof.
  revert i last. induction s as [|a s IH]; intros i last Hlast; simpl.
  - simpl in Hlast. lia.
  - change (String.length (String a s)) with (S (String.length s)) in *.
    specialize (IH (i + 1)%Z (if Ascii.eqb a sep then i else last)).
    destruct (Ascii.eqb a sep); lia.
Qed.

Lemma substring_length_le (n : nat) (s : string) :
  (String.length (substring 0 n s) ≤ n)%nat.
Proof.
  revert s. induction n as [|n IH]; intros [|c s]; simpl; try lia.
  specialize (IH s). lia.
Qed.

(** The directory part of a path is not the path. *)
Lemma configDir_ne (path : string) :
  (0 <? LastIndex path "/")%Z = true →
  substring 0 (Z.to_nat (LastIndex path "/")) path ≠ path.
Proof.
  intros Hpos%Z.ltb_lt Heq.
  pose proof (LastIndex_from_bound path "/" 0 (-1)) as Hb.
  fold (LastIndex path "/") in Hb.
  pose proof (substring_length_le (Z.to_nat (LastIndex path "/")) path) as Hl.
  rewrite Heq in Hl. lia.
Qed.

Lemma existsb_stat_absent_app (name : string) (tr1 tr2 : list Event) :
  existsb (stat_absent name) (tr1 ++ tr2)
  = existsb (stat_absent name) tr1 || existsb (stat_absent name) tr2.
Proof. apply existsb_app. Qed.

Section Startup.

Context {W : Type} (Unmarshal : string → result GoError Config)
  (Sprintf : string → list Arg → string) (env : Env W).

Lemma main_configPath_run (st : State) (w : W) :
  ∃ st1 w1 tr,
    run env (main_configPath st) w = (Returned st1, w1, tr) ∧
    st1 = set_configPath (configPath st1) st ∧
    count_opens tr = 0%nat ∧
    ∀ name, existsb (stat_absent name) tr = false.
Proof.
  unfold main_configPath. run_head. ask env.
  destruct (decide (r ≠ EmptyString)); run_head.
  - ask env. do 3 eexists. split; [done|]. by destruct st.
  - do 3 eexists. split; [done|]. by destruct st.
Qed.

Lemma main_ensureDir_run (st : State) (w : W) :
  ∃ w1 tr,
    run env (main_ensureDir st) w = (Returned tt, w1, tr) ∧
    count_opens tr = 0%nat ∧
    existsb (stat_absent (configPath st)) tr = false.
Proof.
  unfold main_ensureDir.
  destruct (0 <? LastIndex (configPath st) "/")%Z eqn:Hpos;
    [|by do 2 eexists].
  apply configDir_ne in Hpos. apply String.eqb_neq in Hpos.
  run_head. ask env.
  destruct (IsNotExist r) eqn:Habsent; run_head.
  - ask env. ask env. destruct r1; run_head.
    + ask env. do 2 eexists. split; [done|]. split; [done|].
      cbn. by rewrite Hpos.
    + do 2 eexists. split; [done|]. split; [done|]. cbn. by rewrite Hpos.
  - do 2 eexists. split; [done|]. split; [done|]. cbn. by rewrite Hpos.
Qed.

Lemma main_ensureFile_run (st : State) (w : W) :
  ∃ w1 tr,
    run env (main_ensureFile st) w = (Returned tt, w1, tr) ∧
    count_opens tr = 0%nat ∧
    (existsb (stat_absent (configPath st)) tr = true →
     WriteFile (configPath st) defaultConfig 420 ∈ calls tr).
Proof.
  unfold main_ensureFile. run_head. ask env.
  destruct (IsNotExist r) eqn:Habsent; run_head.
  - ask env. ask env. destruct r1; run_head.
    + ask env. do 2 eexists. split; [done|]. split; [done|].
      intros _. cbn. do 2 right. left.
    + do 2 eexists. split; [done|]. split; [done|].
      intros _. cbn. do 2 right. left.
  - do 2 eexists. split; [done|]. split; [done|].
    cbn. rewrite Habsent. by rewrite andb_false_r.
Qed.

Lemma main_initialLoad_run (st : State) (w : W) :
  ∃ config w1 tr,
    run env (main_initialLoad Unmarshal st) w
    = (Returned config, w1,
       (trace (run env (loadConfig Unmarshal (configPath st)) w) ++ tr)%list) ∧
    match outcome (run env (loadConfig Unmarshal (configPath st)) w) with
    | Returned (Ok loaded) => config = loaded
    | Returned (Err _) => config = fallbackConfig
    | Exited _ => False
    end.
Proof.
  unfold main_initialLoad. rewrite run_bind.
  destruct (loadConfig_returns Unmarshal env (configPath st) w) as [res Hres].
  destruct (run env (loadConfig Unmarshal (configPath st)) w) as [[o w1] tr].
  unfold outcome, trace in *. cbn [fst snd] in *. subst o.
  destruct res as [loaded|err]; run_head; ask env; by do 3 eexists.
Qed.

Lemma main_initModTime_run (st : State) (w : W) :
  ∃ st1 w1 tr,
    run env (main_initModTime st) w = (Returned st1, w1, tr) ∧
    st1 = set_lastModTime (lastModTime st1) st.
Proof.
  unfold main_initModTime. run_head. ask env.
  destruct r as [fileInfo|err]; run_head; do 3 eexists; (split; [done|]);
    by destruct st.
Qed.

(** The startup of [main], split around its [loadConfig]. *)
Lemma main_init_run (st : State) (w : W) :
  ∃ (st' : State) (pre rest : list Event) (wl : W),
    outcome (run env (main_init Unmarshal st) w) = Returned st' ∧
    trace (run env (main_init Unmarshal st) w)
    = (pre ++ trace (run env (loadConfig Unmarshal (configPath st')) wl) ++ rest)%list ∧
    count_opens pre = 0%nat ∧
    (∃ r tl, trace (run env (loadConfig Unmarshal (configPath st')) wl)
             = Ev (Open (configPath st')) r :: tl) ∧
    (existsb (stat_absent (configPath st')) pre = true →
     WriteFile (configPath st') defaultConfig 420 ∈ calls pre) ∧
    match outcome (run env (loadConfig Unmarshal (configPath st')) wl) with
    | Returned (Ok config) =>
        serviceStatus st' = updateServiceMetrics config (serviceStatus st)
    | Returned (Err _) =>
        serviceStatus st' = updateServiceMetrics fallbackConfig (serviceStatus st)
    | Exited _ => False
    end.
Proof.
  unfold main_init.
  destruct (main_configPath_run st w) as (st1 & w1 & tr1 & E1 & Hst1 & Ho1 & Ha1).
  destruct (main_ensureDir_run st1 w1) as (w2 & tr2 & E2 & Ho2 & Ha2).
  destruct (main_ensureFile_run st1 w2) as (w3 & tr3 & E3 & Ho3 & Ha3).
  destruct (main_initialLoad_run st1 w3) as (config & w4 & tr4 & E4 & Hcfg).
  destruct (main_initModTime_run st1 w4) as (st2 & w5 & tr5 & E5 & Hst2).
  rewrite run_bind, E1. rewrite run_bind, E2. rewrite run_bind, E3.
  rewrite run_bind, E4. rewrite run_bind, E5. rewrite run_ret.
  assert (configPath st2 = configPath st1) as Hpath
    by (rewrite Hst2; by destruct st1).
  exists (set_serviceStatus (updateServiceMetrics config (serviceStatus st2)) st2),
    (tr1 ++ tr2 ++ tr3)%list, (tr4 ++ tr5)%list, w3.
  change (configPath (set_serviceStatus _ st2)) with (configPath st2).
  rewrite Hpath. split; [done|]. split.
  { unfold trace. cbn [snd]. rewrite app_nil_r, <- !app_assoc. done. }
  split.
  { by rewrite !count_opens_app, Ho1, Ho2, Ho3. }
  split.
  { apply loadConfig_trace_head. }
  split.
  { rewrite !existsb_stat_absent_app, Ha1, Ha2. cbn [orb]. intros Habs.
    unfold calls. rewrite !map_app. apply elem_of_app. right.
    apply elem_of_app. right. by apply Ha3. }
  assert (serviceStatus st2 = serviceStatus st) as ->.
  { rewrite Hst2, Hst1. done. }
  cbn [serviceStatus set_serviceStatus].
  destruct (outcome (run env (loadConfig Unmarshal (configPath st1)) w3))
    as [[loaded|err]|code]; [by subst config|by subst config|done].
Qed.








(** What ends the process: [http.ListenAndServe] returning, and nothing
    before it. *)
Lemma main_exits_after_serving (st : State) (w : W) :
  outcome (run env (main Unmarshal st) w) = Exited 1 ∧
  ∃ addr, ListenAndServe addr ∈ calls (trace (run env (main Unmarshal st) w)).
Proof.
  unfold main. rewrite run_bind.
  destruct (main_init_run st w) as (st' & pre & rest & wl & Hout & _).
  destruct (run env (main_init Unmarshal st) w) as [[o w1] tr].
  unfold outcome in Hout. cbn [fst] in Hout. subst o.
  run_head. repeat ask env. unfold outcome, trace, calls. cbn [fst snd].
  split; [done|]. exists ":8080". rewrite map_app. apply elem_of_app. right.
  cbn. do 6 right. left.
Qed.

End Startup.

(** ** The program on concrete inputs *)

Example Unmarshal_defaultConfig :
  Toml.Unmarshal defaultConfig
  = Ok (mkConfig ["api-gateway"; "auth-service"; "user-service"; "payment-service"]
          ["notification-service"; "recommendation-engine"]).
Proof. vm_compute. reflexivity. Qed.

(** On a machine without the config directory, startup creates it, writes
    the default roster, loads it, and publishes its six services. *)
Example main_init_fresh :
  let r := run Sim.env (main_init Toml.Unmarshal initState) Sim.fresh in
  map (fun c => match c with Printf _ _ => Println "..." | WriteFile n _ p => WriteFile n "..." p | _ => c end)
      (calls (trace r))
  = [Getenv "CONFIG_PATH"; Stat "/app/config"; Println "...";
     MkdirAll "/app/config" 493; Stat "/app/config/config.toml"; Println "...";
     WriteFile "/app/config/config.toml" "..." 420;
     Open "/app/config/config.toml"; ReadFile "/app/config/config.toml"; Close 3;
     Println "..."; Stat "/app/config/config.toml"] ∧
  ∃ st, outcome r = Returned st ∧
        serviceStatus st
        = list_to_map [("api-gateway", 1%Q); ("auth-service", 1%Q);
                       ("user-service", 1%Q); ("payment-service", 1%Q);
                       ("notification-service", 0%Q);
                       ("recommendation-engine", 0%Q)].
Proof.
  split; [vm_compute; reflexivity|]. eexists. split; [reflexivity|].
  vm_compute. reflexivity.
Qed.

(** After that startup the file holds the default roster, stamped with
    the time of the write. *)
Example main_init_fresh_file :
  Sim.nodes (world (run Sim.env (main_init Toml.Unmarshal initState) Sim.fresh))
  !! "/app/config/config.toml"
  = Some (Sim.RegularFile (Sim.Unix 1700000000000000000) defaultConfig).
Proof. vm_compute. reflexivity. Qed.

(** On that file system in any state: a config file that is absent, in a
    directory that exists, holds the default roster after the check. *)
Lemma main_ensureFile_writes (st : State) (w : Sim.World) :
  Sim.nodes w !! configPath st = None →
  Sim.parent_ok (configPath st) w = true →
  Sim.nodes (world (run Sim.env (main_ensureFile st) w)) !! configPath st
  = Some (Sim.RegularFile (Sim.Unix (Sim.clock w)) defaultConfig).
Proof.
  intros Habsent Hparent. unfold main_ensureFile, world.
  cbn [run call bind mbind mret Prog_bind Prog_ret Sim.env].
  rewrite Habsent. cbn [IsNotExist]. 
  cbn [run call bind mbind mret Prog_bind Prog_ret Sim.env].
  rewrite Habsent, Hparent. cbn. apply lookup_insert_eq.
Qed.

(** [round64] against the binary64 arithmetic of the kernel: the literals
    of the program, *)
Example round64_literals :
  exact_of_float (float_of_ratio 1 100) = Some (f64 (1 # 100)) ∧
  exact_of_float (float_of_ratio 5 100) = Some (f64 (5 # 100)) ∧
  exact_of_float (float_of_ratio 1 10) = Some (f64 (1 # 10)) ∧
  exact_of_float (float_of_ratio 1 2) = Some (f64 (5 # 10)).
Proof. repeat split; vm_compute; reflexivity. Qed.

(** the ten bounds of the histogram, *)
Example LinearBuckets_binary64 :
  map exact_of_float
    (LinearBuckets_loop_float (float_of_ratio 1 100) (float_of_ratio 5 100) 10)
  = map Some (default [] requestDuration_Buckets).
Proof. vm_compute. reflexivity. Qed.

(** which are the doubles printed 0.01, 0.060000000000000005,
    0.11000000000000001, 0.16000000000000003, 0.21000000000000002, 0.26,
    0.31, 0.36, 0.41 and 0.45999999999999996, *)
Example requestDuration_Buckets_values :
  requestDuration_Buckets
  = Some [5764607523034235 # 576460752303423488;
          8646911284551353 # 144115188075855872;
          3963167672086037 # 36028797018963968;
          1441151880758559 # 9007199254740992;
          3783023686991217 # 18014398509481984;
          1170935903116329 # 4503599627370496;
          5584463537939415 # 18014398509481984;
          3242591731706757 # 9007199254740992;
          7385903388887613 # 18014398509481984;
          517913957147607 # 1125899906842624]%Q.
Proof. vm_compute. reflexivity. Qed.

(** [Inc] then [Dec] of the double 0.1, which gives 0.10000000000000009, *)
Example Dec_Inc_binary64 :
  exact_of_float
    (PrimFloat.add (PrimFloat.add (float_of_ratio 1 10) (float_of_ratio 1 1))
       (PrimFloat.opp (float_of_ratio 1 1)))
  = Some (Dec (Inc (f64 (1 # 10)))) ∧
  Dec (Inc (f64 (1 # 10))) = (225179981368525 # 2251799813685248)%Q.
Proof. split; vm_compute; reflexivity. Qed.

(** [Seconds] of one nanosecond and of 460 ms; the latter is above the
    last bound of the histogram and falls in none of its buckets, *)
Example Seconds_binary64 :
  exact_of_float
    (PrimFloat.add (float_of_ratio 0 1)
       (PrimFloat.div (float_of_ratio 1 1) (float_of_ratio 1000000000 1)))
  = Some (Seconds 1) ∧
  Seconds 1 = (4835703278458517 # 4835703278458516698824704)%Q ∧
  exact_of_float
    (PrimFloat.add (float_of_ratio 0 1)
       (PrimFloat.div (float_of_ratio 460000000 1) (float_of_ratio 1000000000 1)))
  = Some (Seconds 460000000) ∧
  SearchFloat64s (default [] requestDuration_Buckets) (Seconds 460000000) = 10%nat.
Proof. repeat split; vm_compute; reflexivity. Qed.

(** and the sleep of the handler at the draw 0x1.f9add3739635fp-3, where
    the rounded product reaches 123456789 ns and the exact one does not. *)
Example sleep_binary64 :
  let r := (8895999182988127 # 36028797018963968)%Q in
  exact_of_float
    (PrimFloat.mul
       (PrimFloat.mul (float_of_ratio 8895999182988127 36028797018963968)
          (float_of_ratio 1 2))
       (float_of_ratio 1000000000 1))
  = Some (fmul (fmul r (5 # 10)) (float64_of_int Second)) ∧
  Duration_of_float (fmul (fmul r (5 # 10)) (float64_of_int Second)) = 123456789%Z ∧
  Duration_of_float (r * (5 # 10) * inject_Z Second) = 123456788%Z.
Proof. repeat split; vm_compute; reflexivity. Qed.

(** The load the simulator stores at the draw 990791918021509 / 2^53, and
    that load after [Inc] and [Dec], on the floats of the kernel. *)
Example load_binary64 :
  let load :=
    PrimFloat.mul (float_of_ratio 990791918021509 9007199254740992)
      (float_of_ratio 10 1) in
  exact_of_float load = Some (4953959590107545 # 4503599627370496)%Q ∧
  exact_of_float
    (PrimFloat.add (PrimFloat.add load (float_of_ratio 1 1))
       (PrimFloat.opp (float_of_ratio 1 1)))
  = Some (619244948763443 # 562949953421312)%Q.
Proof. split; vm_compute; reflexivity. Qed.


(** The example of the specification: three services, one of them down. *)
Example updateServiceMetrics_example :
  updateServiceMetrics
    (mkConfig ["api-gateway"; "auth-service"] ["notification-service"]) stale_gauge
  = list_to_map [("api-gateway", 1%Q); ("auth-service", 1%Q);
                 ("notification-service", 0%Q)].
Proof. vm_compute. reflexivity. Qed.

Lemma updateServiceMetrics_sets_witness :
  setUpServices (UpServices roster_both) (GaugeVec.Reset stale_gauge) !! "auth-service"
  = Some 1%Q ∧
  updateServiceMetrics roster_both stale_gauge !! "notification-service" = Some 0%Q ∧
  updateServiceMetrics roster_both stale_gauge !! "api-gateway" = Some 1%Q ∧
  updateServiceMetrics roster_both stale_gauge !! "auth-service" = Some 0%Q.
Proof.
  split; [|split; [|split]].
  - apply (proj1 (updateServiceMetrics_sets roster_both stale_gauge "auth-service")).
    unfold roster_both. cbn. right. left.
  - apply (proj1 (proj2 (updateServiceMetrics_sets roster_both stale_gauge
                           "notification-service"))).
    unfold roster_both. cbn. right. left.
  - apply (proj1 (proj2 (proj2 (updateServiceMetrics_sets roster_both stale_gauge
                                  "api-gateway")))).
    + unfold roster_both. cbn. left.
    + unfold roster_both. cbn. intros H.
      apply elem_of_cons in H as [H|H]; [discriminate H|].
      apply elem_of_cons in H as [H|H]; [discriminate H|].
      by apply elem_of_nil in H.
  - apply (proj2 (proj2 (proj2 (updateServiceMetrics_sets roster_both stale_gauge
                                  "auth-service")))).
    + unfold roster_both. cbn. right. left.
    + unfold roster_both. cbn. left.
Defined.

Lemma watchConfig_iter_no_reload_witness :
  outcome (run Sim.env (watchConfig_iter Toml.Unmarshal state_seen) world_default)
  = Returned state_seen ∧
  calls (trace (run Sim.env (watchConfig_iter Toml.Unmarshal state_seen) world_default))
  = [Stat "/app/config/config.toml"; Sleep 3000000000].
Proof.
  apply (watchConfig_iter_no_reload Toml.Unmarshal Sim.env state_seen
           world_default world_default (mkFileInfo (Sim.Unix 5))).
  - vm_compute. reflexivity.
  - vm_compute. reflexivity.
Defined.

Lemma loadConfig_failure_witness :
  (∃ err, outcome (run Sim.env (loadConfig Toml.Unmarshal "/app/config/config.toml") Sim.fresh)
          = Returned (Err err) ∧ failure_kind err = Some IOFailure) ∧
  (∃ err, outcome (run Sim.env (loadConfig Toml.Unmarshal "/app/config/config.toml") world_directory)
          = Returned (Err err) ∧ failure_kind err = Some IOFailure) ∧
  (∃ err, outcome (run Sim.env (loadConfig Toml.Unmarshal "/app/config/config.toml") world_malformed)
          = Returned (Err err) ∧ failure_kind err = Some ParseFailure) ∧
  outcome (run Sim.env (watchConfig_iter Toml.Unmarshal initState) world_malformed)
  = Returned initState.
Proof.
  split; [|split; [|split]].
  - apply (proj1 (loadConfig_failure Toml.Unmarshal Sim.env initState Sim.fresh)
             ENOENT Sim.fresh).
    vm_compute. reflexivity.
  - apply (proj1 (proj2 (loadConfig_failure Toml.Unmarshal Sim.env initState world_directory))
             3%Z world_directory EISDIR world_directory).
    + vm_compute. reflexivity.
    + vm_compute. reflexivity.
  - apply (proj1 (proj2 (proj2 (loadConfig_failure Toml.Unmarshal Sim.env initState
                                  world_malformed)))
             3%Z world_malformed "up_services = [" world_malformed
             (DecodeError "toml: invalid document")).
    + vm_compute. reflexivity.
    + vm_compute. reflexivity.
    + vm_compute. reflexivity.
  - apply (proj2 (proj2 (proj2 (loadConfig_failure Toml.Unmarshal Sim.env initState
                                  world_malformed)))
             (mkFileInfo (Sim.Unix 5)) world_malformed
             (Errorf "error parsing config file: " (DecodeError "toml: invalid document"))).
    + vm_compute. reflexivity.
    + vm_compute. discriminate.
    + vm_compute. reflexivity.
Defined.

Lemma watchConfig_lastModTime_witness :
  (∃ fileInfo w1 config,
     Sim.env (Stat "/app/config/config.toml") world_default = (Ok fileInfo, w1) ∧
     outcome (run Sim.env (loadConfig Toml.Unmarshal "/app/config/config.toml")
                (Sim.env (Println "Config file changed, reloading...") w1).2)
     = Returned (Ok config) ∧
     Sim.Unix 5 = ModTime fileInfo) ∧
  outcome (run Denied.env (watchConfig_loop Toml.Unmarshal 3 initState) tt)
  = Returned initState ∧
  count_opens (trace (run Denied.env (watchConfig_loop Toml.Unmarshal 3 initState) tt))
  = 3%nat.
Proof.
  split.
  - apply (proj1 (watchConfig_lastModTime Toml.Unmarshal Sim.env initState)
             world_default
             (set_lastModTime (Sim.Unix 5)
                (set_serviceStatus
                   (updateServiceMetrics
                      (mkConfig ["api-gateway"; "auth-service"; "user-service";
                                 "payment-service"]
                         ["notification-service"; "recommendation-engine"])
                      (serviceStatus initState)) initState))).
    + vm_compute. reflexivity.
    + vm_compute. discriminate.
  - apply (proj2 (watchConfig_lastModTime Toml.Unmarshal Denied.env initState)
             (mkFileInfo Denied.changed)).
    + intros w. reflexivity.
    + vm_compute. discriminate.
    + intros w. eexists. reflexivity.
Defined.

(** ** Further properties of [updateServiceMetrics] *)

(** X1: every value [updateServiceMetrics] leaves in the gauge is 0 or 1. *)
Theorem updateServiceMetrics_values (config : Config) (g : gmap string Q) :
  map_Forall (fun _ v => v = 0%Q ∨ v = 1%Q) (updateServiceMetrics config g).
Proof.
  intros k v Hk. rewrite updateServiceMetrics_lookup in Hk.
  destruct (decide (k ∈ DownServices config)); [left; congruence|].
  destruct (decide (k ∈ UpServices config)); [right; congruence|done].
Qed.

(** X2: the gauge depends on which names each list holds, not on their
    order or on repetitions. *)
Theorem updateServiceMetrics_names_only
  (c1 c2 : Config) (g1 g2 : gmap string Q) :
  list_to_set (UpServices c1) =@{gset string} list_to_set (UpServices c2) →
  list_to_set (DownServices c1) =@{gset string} list_to_set (DownServices c2) →
  updateServiceMetrics c1 g1 = updateServiceMetrics c2 g2.
Proof.
  intros Hup Hdown. apply map_eq. intros k.
  rewrite !updateServiceMetrics_lookup.
  assert (k ∈ UpServices c1 ↔ k ∈ UpServices c2) as Hu.
  { rewrite <- !(elem_of_list_to_set (C := gset string)). by rewrite Hup. }
  assert (k ∈ DownServices c1 ↔ k ∈ DownServices c2) as Hd.
  { rewrite <- !(elem_of_list_to_set (C := gset string)). by rewrite Hdown. }
  repeat case_decide; tauto.
Qed.

Lemma updateServiceMetrics_names_only_witness :
  updateServiceMetrics roster_listed stale_gauge
  = updateServiceMetrics roster_relisted ∅.
Proof.
  apply (updateServiceMetrics_names_only roster_listed roster_relisted stale_gauge ∅).
  - vm_compute. reflexivity.
  - vm_compute. reflexivity.
Defined.

(** X3: the call leaves the gauge empty exactly when both lists of the
    roster are empty. *)
Theorem updateServiceMetrics_empty (config : Config) (g : gmap string Q) :
  updateServiceMetrics config g = ∅
  ↔ UpServices config = [] ∧ DownServices config = [].
Proof.
  split.
  - intros Hempty.
    assert (∀ k, (k ∉ UpServices config) ∧ (k ∉ DownServices config)) as Hnone.
    { intros k.
      pose proof (updateServiceMetrics_lookup config g k) as Hk.
      rewrite Hempty, lookup_empty in Hk.
      destruct (decide (k ∈ DownServices config)); [done|].
      destruct (decide (k ∈ UpServices config)); done. }
    split.
    + destruct (UpServices config) as [|a l]; [done|].
      destruct (Hnone a) as [Hn _]. exfalso. apply Hn. left.
    + destruct (DownServices config) as [|a l]; [done|].
      destruct (Hnone a) as [_ Hn]. exfalso. apply Hn. left.
  - intros [Hu Hd]. apply map_eq. intros k.
    rewrite updateServiceMetrics_lookup, Hu, Hd, lookup_empty.
    rewrite !decide_False; [done| |]; apply not_elem_of_nil.
Qed.

(** ** Further properties of [loadConfig] and of the watcher *)

Lemma calls_app (tr1 tr2 : list Event) :
  calls (tr1 ++ tr2) = (calls tr1 ++ calls tr2)%list.
Proof. apply map_app. Qed.

Lemma count_calls_app (p : Call → bool) (tr1 tr2 : list Event) :
  count_calls p (tr1 ++ tr2) = (count_calls p tr1 + count_calls p tr2)%nat.
Proof.
  unfold count_calls. by rewrite calls_app, List.filter_app, length_app.
Qed.

Section WatcherMore.

Context {W : Type} (Unmarshal : string → result GoError Config) (env : Env W).

(** X4: [loadConfig] calls [os.Open] and stops there when it fails;
    otherwise it reads the file by its path and closes the descriptor it
    opened, also when the read or the decoding fails. It makes no other
    call. *)
Theorem loadConfig_calls (path : string) (w : W) :
  calls (trace (run env (loadConfig Unmarshal path) w)) =
    match (env (Open path) w).1 with
    | Err _ => [Open path]
    | Ok fd => [Open path; ReadFile path; Close fd]
    end.
Proof.
  unfold loadConfig, trace, calls. run_head.
  destruct (env (Open path) w) as [[fd|e] w1]; cbn [fst snd]; run_head; [|done].
  ask env. by ask env.
Qed.

(** X5: [loadConfig] returns a roster exactly when the file opens, reads
    and decodes, and the roster is the decoded one. *)
Theorem loadConfig_success (path : string) (w : W) (config : Config) :
  outcome (run env (loadConfig Unmarshal path) w) = Returned (Ok config)
  ↔ ∃ fd data,
      (env (Open path) w).1 = Ok fd ∧
      (env (ReadFile path) (env (Open path) w).2).1 = Ok data ∧
      Unmarshal data = Ok config.
Proof.
  unfold loadConfig, outcome. run_head.
  destruct (env (Open path) w) as [[fd|e] w1]; cbn [fst snd]; run_head.
  - destruct (env (ReadFile path) w1) as [[data|e] w2]; cbn [fst snd]; run_head.
    + ask env. split.
      * intros H. exists fd, data. repeat split.
        destruct (Unmarshal data); congruence.
      * intros (fd' & data' & _ & [= <-] & ->). done.
    + ask env. split; [done|]. by intros (? & ? & _ & ? & _).
  - split; [done|]. by intros (? & ? & ? & _).
Qed.

Lemma reload_returns (modTime : Time) (st : State) (w : W) :
  ∃ st', outcome (run env (reload Unmarshal modTime st) w) = Returned st'.
Proof.
  rewrite reload_outcome.
  destruct (loadConfig_returns Unmarshal env (configPath st)
              (env (Println "Config file changed, reloading...") w).2)
    as [[config|err] ->]; by eexists.
Qed.

(** The calls of [reload], by what [loadConfig] returned. *)
Lemma reload_calls (modTime : Time) (st : State) (w : W) :
  calls (trace (run env (reload Unmarshal modTime st) w)) =
    let load :=
      run env (loadConfig Unmarshal (configPath st))
        (env (Println "Config file changed, reloading...") w).2 in
    (Println "Config file changed, reloading..." :: calls (trace load) ++
     match outcome load with
     | Returned (Ok config) =>
         [Lock; Unlock;
          Printf "Reloaded config: %d up services and %d down services"
            [AInt (Z.of_nat (length (UpServices config)));
             AInt (Z.of_nat (length (DownServices config)))]]
     | Returned (Err err) => [Printf "Error loading config: %v" [AError err]]
     | Exited _ => []
     end)%list.
Proof.
  unfold reload. run_head.
  destruct (env (Println _) w) as [[] w1]; cbn [fst snd].
  rewrite run_bind. cbv zeta.
  destruct (run env (loadConfig Unmarshal (configPath st)) w1)
    as [[[[config|err]|code] w2] tr]; unfold outcome, trace; cbn [fst snd].
  - run_head. ask env. ask env. ask env.
    unfold calls. cbn. by rewrite !map_app.
  - run_head. ask env. unfold calls. cbn. by rewrite !map_app.
  - unfold calls. cbn. by rewrite app_nil_r.
Qed.

(** The calls of one turn of the loop, by what the environment answered. *)
Lemma watchConfig_iter_calls (st : State) (w : W) :
  calls (trace (run env (watchConfig_iter Unmarshal st) w)) =
    match (env (Stat (configPath st)) w).1 with
    | Err e =>
        [Stat (configPath st);
         Printf "Error checking config file: %v" [AError (PathError e)];
         Sleep checkInterval]
    | Ok fileInfo =>
        if decide (ModTime fileInfo ≠ lastModTime st) then
          (Stat (configPath st)
             :: calls (trace (run env (reload Unmarshal (ModTime fileInfo) st)
                                (env (Stat (configPath st)) w).2))
             ++ [Sleep checkInterval])%list
        else [Stat (configPath st); Sleep checkInterval]
    end.
Proof.
  unfold watchConfig_iter. run_head.
  destruct (env (Stat (configPath st)) w) as [[fileInfo|err] w1]; cbn [fst snd].
  - destruct (decide (ModTime fileInfo ≠ lastModTime st)).
    + rewrite run_bind.
      destruct (reload_returns (ModTime fileInfo) st w1) as [st' Hst'].
      destruct (run env (reload Unmarshal (ModTime fileInfo) st) w1)
        as [[o w2] tr]. unfold outcome in Hst'. cbn [fst] in Hst'. subst o.
      run_head. ask env. unfold trace, calls. cbn. by rewrite map_app.
    + run_head. by ask env.
  - run_head. ask env. by ask env.
Qed.

(** X6: when [os.Stat] fails, the turn logs the error, sleeps and returns
    the state it was given: the roster in memory stays, and nothing is
    opened. *)
Theorem watchConfig_iter_stat_error (st : State) (w w1 : W) (e : errno) :
  env (Stat (configPath st)) w = (Err e, w1) →
  outcome (run env (watchConfig_iter Unmarshal st) w) = Returned st ∧
  calls (trace (run env (watchConfig_iter Unmarshal st) w))
  = [Stat (configPath st);
     Printf "Error checking config file: %v" [AError (PathError e)];
     Sleep checkInterval].
Proof.
  intros Hstat. rewrite watchConfig_iter_outcome, watchConfig_iter_calls, Hstat.
  done.
Qed.

(** X7: when [os.Stat] reports another modification time than
    [lastModTime] and [loadConfig] returns a roster, the turn returns the
    state with the gauge set from that roster and [lastModTime] set to the
    time just read; the lock is taken after the load and released before
    the log line and the sleep. *)
Theorem watchConfig_iter_reloads
  (st : State) (w w1 : W) (fileInfo : FileInfo) (config : Config) :
  env (Stat (configPath st)) w = (Ok fileInfo, w1) →
  ModTime fileInfo ≠ lastModTime st →
  outcome (run env (loadConfig Unmarshal (configPath st))
             (env (Println "Config file changed, reloading...") w1).2)
  = Returned (Ok config) →
  outcome (run env (watchConfig_iter Unmarshal st) w)
  = Returned (set_lastModTime (ModTime fileInfo)
                (set_serviceStatus
                   (updateServiceMetrics config (serviceStatus st)) st)) ∧
  calls (trace (run env (watchConfig_iter Unmarshal st) w))
  = (Stat (configPath st) :: Println "Config file changed, reloading..."
       :: calls (trace (run env (loadConfig Unmarshal (configPath st))
                          (env (Println "Config file changed, reloading...") w1).2))
       ++ [Lock; Unlock;
           Printf "Reloaded config: %d up services and %d down services"
             [AInt (Z.of_nat (length (UpServices config)));
              AInt (Z.of_nat (length (DownServices config)))];
           Sleep checkInterval])%list.
Proof.
  intros Hstat Hne Hload.
  rewrite watchConfig_iter_outcome, watchConfig_iter_calls, Hstat. cbn [fst snd].
  rewrite !decide_True by done.
  rewrite reload_outcome, reload_calls. cbv zeta. rewrite Hload.
  split; [done|]. cbn. by rewrite <- app_assoc.
Qed.

End WatcherMore.

Lemma watchConfig_iter_stat_error_witness :
  outcome (run Sim.env (watchConfig_iter Toml.Unmarshal initState) Sim.fresh)
  = Returned initState ∧
  calls (trace (run Sim.env (watchConfig_iter Toml.Unmarshal initState) Sim.fresh))
  = [Stat "/app/config/config.toml";
     Printf "Error checking config file: %v" [AError (PathError ENOENT)];
     Sleep checkInterval].
Proof.
  apply (watchConfig_iter_stat_error Toml.Unmarshal Sim.env initState
           Sim.fresh Sim.fresh ENOENT).
  vm_compute. reflexivity.
Defined.

Lemma watchConfig_iter_reloads_witness :
  outcome (run Sim.env (watchConfig_iter Toml.Unmarshal initState) world_default)
  = Returned (set_lastModTime (Sim.Unix 5)
                (set_serviceStatus
                   (updateServiceMetrics roster_default ∅) initState)).
Proof.
  apply (watchConfig_iter_reloads Toml.Unmarshal Sim.env initState
           world_default world_default (mkFileInfo (Sim.Unix 5)) roster_default).
  - vm_compute. reflexivity.
  - vm_compute. discriminate.
  - vm_compute. reflexivity.
Defined.

Section WatcherLoop.

Context {W : Type} (Unmarshal : string → result GoError Config) (env : Env W).

Lemma loadConfig_sleeps (path : string) (w : W) :
  List.filter is_Sleep (calls (trace (run env (loadConfig Unmarshal path) w))) = [].
Proof.
  unfold loadConfig, trace, calls. run_head. ask env.
  destruct r as [fd|e]; run_head; [|done]. ask env. by ask env.
Qed.

Lemma loadConfig_watcher_calls (path : string) (w : W) :
  forallb watcher_call (calls (trace (run env (loadConfig Unmarshal path) w))) = true.
Proof.
  unfold loadConfig, trace, calls. run_head. ask env.
  destruct r as [fd|e]; run_head; [|done]. ask env. by ask env.
Qed.

Lemma watchConfig_iter_sleeps (st : State) (w : W) :
  List.filter is_Sleep (calls (trace (run env (watchConfig_iter Unmarshal st) w)))
  = [Sleep checkInterval].
Proof.
  rewrite watchConfig_iter_calls.
  destruct (env (Stat (configPath st)) w) as [[fileInfo|e] w1]; cbn [fst snd];
    [|done].
  destruct (decide (ModTime fileInfo ≠ lastModTime st)); [|done].
  rewrite reload_calls. cbv zeta.
  destruct (env (Println _) w1) as [[] w2]; cbn [fst snd].
  cbn [List.filter is_Sleep app]. rewrite !List.filter_app, loadConfig_sleeps.
  by destruct (outcome (run env (loadConfig Unmarshal (configPath st)) w2))
    as [[config|err]|code].
Qed.

Lemma watchConfig_iter_watcher_calls (st : State) (w : W) :
  forallb watcher_call
    (calls (trace (run env (watchConfig_iter Unmarshal st) w))) = true.
Proof.
  rewrite watchConfig_iter_calls.
  destruct (env (Stat (configPath st)) w) as [[fileInfo|e] w1]; cbn [fst snd];
    [|done].
  destruct (decide (ModTime fileInfo ≠ lastModTime st)); [|done].
  rewrite reload_calls. cbv zeta.
  destruct (env (Println _) w1) as [[] w2]; cbn [fst snd].
  cbn [forallb watcher_call andb app]. rewrite !forallb_app, loadConfig_watcher_calls.
  by destruct (outcome (run env (loadConfig Unmarshal (configPath st)) w2))
    as [[config|err]|code].
Qed.

Lemma watchConfig_iter_frame (st st' : State) (w : W) :
  outcome (run env (watchConfig_iter Unmarshal st) w) = Returned st' →
  same_but_roster st st'.
Proof.
  rewrite watchConfig_iter_outcome.
  destruct (env (Stat (configPath st)) w).1 as [fileInfo|e];
    [|by intros [= <-]].
  destruct (decide (ModTime fileInfo ≠ lastModTime st)); [|by intros [= <-]].
  rewrite reload_outcome.
  destruct (outcome (run env (loadConfig Unmarshal (configPath st)) _))
    as [[config|err]|code]; [| |done]; by intros [= <-].
Qed.

(** The run of [S n] turns, split after the first. *)
Lemma watchConfig_loop_S (n : nat) (st : State) (w : W) :
  ∃ st1 w1,
    outcome (run env (watchConfig_iter Unmarshal st) w) = Returned st1 ∧
    outcome (run env (watchConfig_loop Unmarshal (S n) st) w)
    = outcome (run env (watchConfig_loop Unmarshal n st1) w1) ∧
    trace (run env (watchConfig_loop Unmarshal (S n) st) w)
    = (trace (run env (watchConfig_iter Unmarshal st) w)
       ++ trace (run env (watchConfig_loop Unmarshal n st1) w1))%list.
Proof.
  cbn [watchConfig_loop]. rewrite run_bind.
  destruct (watchConfig_iter_returns Unmarshal env st w) as [st1 Hst1].
  destruct (run env (watchConfig_iter Unmarshal st) w) as [[o w1] tr].
  unfold outcome in Hst1. cbn [fst] in Hst1. subst o.
  exists st1, w1. split; [done|].
  by destruct (run env (watchConfig_loop Unmarshal n st1) w1) as [[o2 w2] tr2].
Qed.

(** X8: every poll sleeps exactly once, for three seconds, whatever it
    met: [n] turns of the loop make [n] calls of [time.Sleep], each of
    [checkInterval]. *)
Theorem watchConfig_loop_sleeps (n : nat) (st : State) (w : W) :
  List.filter is_Sleep (calls (trace (run env (watchConfig_loop Unmarshal n st) w)))
  = repeat (Sleep 3000000000) n.
Proof.
  revert st w. induction n as [|n IH]; intros st w; [done|].
  destruct (watchConfig_loop_S n st w) as (st1 & w1 & _ & _ & ->).
  rewrite calls_app, List.filter_app, watchConfig_iter_sleeps, IH. done.
Qed.

(** X9: the watcher only stats, opens, reads, closes, logs, locks and
    sleeps: it never writes a file, makes a directory, or ends the
    process; and of the state it changes the gauge and [lastModTime]
    only. *)
Theorem watchConfig_loop_frame (n : nat) (st : State) (w : W) :
  ∃ st',
    outcome (run env (watchConfig_loop Unmarshal n st) w) = Returned st' ∧
    same_but_roster st st' ∧
    forallb watcher_call
      (calls (trace (run env (watchConfig_loop Unmarshal n st) w))) = true ∧
    count_calls is_mutation (trace (run env (watchConfig_loop Unmarshal n st) w))
    = 0%nat.
Proof.
  revert st w. induction n as [|n IH]; intros st w.
  - exists st. by repeat split.
  - destruct (watchConfig_loop_S n st w) as (st1 & w1 & H1 & -> & ->).
    destruct (IH st1 w1) as (st' & Hout & Hframe & Hcalls & Hmut).
    exists st'. split; [done|].
    pose proof (watchConfig_iter_frame st st1 w H1) as Hf1.
    pose proof (watchConfig_iter_watcher_calls st w) as Hc1.
    split.
    { unfold same_but_roster in *. intuition congruence. }
    split.
    { by rewrite calls_app, forallb_app, Hc1, Hcalls. }
    rewrite count_calls_app, Hmut, Nat.add_0_r.
    unfold count_calls.
    induction (calls (trace (run env (watchConfig_iter Unmarshal st) w)))
      as [|c l IHl]; [done|].
    cbn [forallb] in Hc1. apply andb_prop in Hc1 as [Hc Hl].
    cbn [List.filter]. destruct c; try discriminate Hc; cbn; by apply IHl.
Qed.

(** Polls that see the modification time already held do nothing. *)
Lemma watchConfig_loop_quiet (st : State) (fileInfo : FileInfo) :
  (∀ w, (env (Stat (configPath st)) w).1 = Ok fileInfo) →
  ModTime fileInfo = lastModTime st →
  ∀ n w,
    outcome (run env (watchConfig_loop Unmarshal n st) w) = Returned st ∧
    count_opens (trace (run env (watchConfig_loop Unmarshal n st) w)) = 0%nat.
Proof.
  intros Hstat Hsame n. induction n as [|n IH]; intros w; [done|].
  destruct (watchConfig_loop_S n st w) as (st1 & w1 & H1 & -> & ->).
  rewrite watchConfig_iter_outcome, Hstat in H1.
  rewrite decide_False in H1 by (intros Hne; by apply Hne).
  injection H1 as <-.
  rewrite count_opens_app, watchConfig_iter_count_opens, Hstat.
  rewrite decide_False by (intros Hne; by apply Hne).
  destruct (IH w1) as [-> ->]. done.
Qed.

(** X10: once a changed file has been loaded, further polls that see the
    same modification time load nothing: over any number of polls the file
    is opened once, and the state stays the reloaded one. *)
Theorem watchConfig_loop_reloads_once
  (st : State) (fileInfo : FileInfo) (config : Config) :
  (∀ w, (env (Stat (configPath st)) w).1 = Ok fileInfo) →
  ModTime fileInfo ≠ lastModTime st →
  (∀ w, outcome (run env (loadConfig Unmarshal (configPath st)) w)
        = Returned (Ok config)) →
  ∀ n w,
    outcome (run env (watchConfig_loop Unmarshal (S n) st) w)
    = Returned (reloaded (ModTime fileInfo) config st) ∧
    count_opens (trace (run env (watchConfig_loop Unmarshal (S n) st) w)) = 1%nat.
Proof.
  intros Hstat Hne Hload n w.
  destruct (watchConfig_loop_S n st w) as (st1 & w1 & H1 & -> & ->).
  rewrite watchConfig_iter_outcome, Hstat in H1.
  rewrite decide_True in H1 by done.
  rewrite reload_outcome, Hload in H1. injection H1 as <-.
  rewrite count_opens_app, watchConfig_iter_count_opens, Hstat.
  rewrite decide_True by done.
  destruct (watchConfig_loop_quiet
              (reloaded (ModTime fileInfo) config st) fileInfo Hstat eq_refl n w1)
    as [Hout Hcount].
  unfold reloaded in *. by rewrite Hout, Hcount.
Qed.

End WatcherLoop.

Lemma watchConfig_loop_reloads_once_witness :
  outcome (run Steady.env (watchConfig_loop Toml.Unmarshal 4 initState) tt)
  = Returned (reloaded Denied.changed roster_default initState) ∧
  count_opens (trace (run Steady.env (watchConfig_loop Toml.Unmarshal 4 initState) tt))
  = 1%nat.
Proof.
  apply (watchConfig_loop_reloads_once Toml.Unmarshal Steady.env initState
           (mkFileInfo Denied.changed) roster_default).
  - intros w. reflexivity.
  - vm_compute. discriminate.
  - intros w. vm_compute. reflexivity.
Defined.

(** ** Further properties of startup *)

Lemma LastIndex_from_spec (s : string) (sep : ascii) (i last : Z) :
  (LastIndex_from s sep i last = last ∧ ∀ j, String.get j s ≠ Some sep)
  ∨ ∃ k : nat,
      LastIndex_from s sep i last = (i + Z.of_nat k)%Z ∧
      String.get k s = Some sep ∧
      ∀ j, (k < j)%nat → String.get j s ≠ Some sep.
Proof.
  revert i last. induction s as [|a s IH]; intros i last; simpl.
  - left. split; [done|]. by intros j.
  - destruct (IH (i + 1)%Z (if Ascii.eqb a sep then i else last))
      as [[Hlast Hnone]|(k & Hk & Hget & Hafter)].
    + destruct (Ascii.eqb a sep) eqn:Ha.
      * apply Ascii.eqb_eq in Ha as ->. right. exists 0%nat.
        split; [lia|]. split; [done|].
        intros [|j] Hj; [lia|]. apply Hnone.
      * left. split; [done|]. intros [|j]; [|apply Hnone].
        simpl. intros [= ->]. by rewrite Ascii.eqb_refl in Ha.
    + right. exists (S k). split; [lia|]. split; [done|].
      intros [|j] Hj; [lia|]. apply Hafter. lia.
Qed.

(** X11: [LastIndex] is [-1] when the byte does not occur in the string;
    otherwise it is the index of an occurrence after which the byte does
    not occur again. *)
Theorem LastIndex_spec (s : string) (sep : ascii) :
  (LastIndex s sep = (-1)%Z ∧ ∀ j, String.get j s ≠ Some sep)
  ∨ ∃ k : nat,
      LastIndex s sep = Z.of_nat k ∧
      String.get k s = Some sep ∧
      ∀ j, (k < j)%nat → String.get j s ≠ Some sep.
Proof.
  unfold LastIndex.
  destruct (LastIndex_from_spec s sep 0 (-1)) as [?|(k & Hk & ?)]; [by left|].
  right. exists k. by rewrite Hk.
Qed.

Lemma split_at (k : nat) (s : string) (c : ascii) :
  String.get k s = Some c →
  ∃ rest, s = substring 0 k s ++ String c rest
          ∧ ∀ j, String.get j rest = String.get (S k + j) s.
Proof.
  revert s. induction k as [|k IH]; intros [|a s] Hget; simpl in Hget; try done.
  - injection Hget as ->. exists s. by destruct s.
  - destruct (IH s Hget) as (rest & Hs & Hrest).
    exists rest. split; [|done].
    change (String a s = String a (substring 0 k s ++ String c rest)).
    by f_equal.
Qed.

(** X12: when the config path has a slash past its first byte, the path
    is the directory [main] checks, a slash, and a file name without
    slash. *)
Theorem configDir_split (path : string) :
  (0 < LastIndex path "/")%Z →
  ∃ base,
    path = substring 0 (Z.to_nat (LastIndex path "/")) path ++ String "/" base
    ∧ LastIndex base "/" = (-1)%Z.
Proof.
  intros Hpos.
  unfold LastIndex in *.
  destruct (LastIndex_from_spec path "/" 0 (-1))
    as [[Hno _]|(k & Hk & Hget & Hafter)]; [lia|].
  rewrite Hk, Z.add_0_l, Nat2Z.id.
  destruct (split_at k path "/" Hget) as (base & Hpath & Hbase).
  exists base. split; [done|].
  destruct (LastIndex_from_spec base "/" 0 (-1))
    as [[Hno _]|(k' & _ & Hget' & _)]; [done|].
  exfalso. rewrite Hbase in Hget'. apply (Hafter (S k + k')%nat); [lia|done].
Qed.

Lemma configDir_split_witness :
  ∃ base,
    "/app/config/config.toml" = "/app/config" ++ String "/" base
    ∧ LastIndex base "/" = (-1)%Z.
Proof.
  apply (configDir_split "/app/config/config.toml").
  vm_compute. reflexivity.
Defined.

Section StartupMore.

Context {W : Type} (Unmarshal : string → result GoError Config) (env : Env W).

(** X13: [main] looks at the config directory only when the path has a
    slash past its first byte, and calls [os.MkdirAll] exactly when
    [os.Stat] then reports that the directory does not exist; another
    failure of [os.Stat] creates nothing. *)
Theorem main_ensureDir_calls (st : State) (w : W) :
  let lastSlash := LastIndex (configPath st) "/" in
  let configDir := substring 0 (Z.to_nat lastSlash) (configPath st) in
  let tr := trace (run env (main_ensureDir st) w) in
  if (0 <? lastSlash)%Z then
    (∃ rest, calls tr = Stat configDir :: rest) ∧
    count_calls is_mutation tr
    = (if IsNotExist (env (Stat configDir) w).1 then 1%nat else 0%nat) ∧
    (MkdirAll configDir 493 ∈ calls tr
     ↔ IsNotExist (env (Stat configDir) w).1 = true)
  else calls tr = [].
Proof.
  cbv zeta. unfold main_ensureDir.
  destruct (0 <? LastIndex (configPath st) "/")%Z; [|done].
  run_head. destruct (env (Stat _) w) as [r w1]; cbn [fst snd].
  destruct (IsNotExist r) eqn:Habsent; run_head.
  - ask env. ask env. destruct r1; run_head; [ask env|];
      (split; [by eexists|]); (split; [done|]);
      (split; [done|]); intros _; cbn; do 2 right; left.
  - split; [by eexists|]. split; [done|]. split; [|done].
    cbn. intros H. apply list_elem_of_singleton in H. done.
Qed.

(** X14: [main] writes the default roster exactly when [os.Stat] reports
    that the config file does not exist: a file that is there is not
    overwritten, and another failure of [os.Stat] writes nothing. *)
Theorem main_ensureFile_calls (st : State) (w : W) :
  let tr := trace (run env (main_ensureFile st) w) in
  if IsNotExist (env (Stat (configPath st)) w).1 then
    ∃ rest,
      calls tr
      = Stat (configPath st)
          :: Printf "Config file %s does not exist, creating default"
               [AString (configPath st)]
          :: WriteFile (configPath st) defaultConfig 420 :: rest
      ∧ count_calls is_mutation tr = 1%nat
  else calls tr = [Stat (configPath st)].
Proof.
  cbv zeta. unfold main_ensureFile. run_head.
  destruct (env (Stat _) w) as [r w1]; cbn [fst snd].
  destruct (IsNotExist r) eqn:Habsent; run_head; [|done].
  ask env. ask env. destruct r1; run_head; [ask env|]; by eexists.
Qed.

End StartupMore.

Section StartupState.

Context {W : Type} (Unmarshal : string → result GoError Config) (env : Env W).

(** The config path [main] settles on: [CONFIG_PATH] when it is set. *)
Lemma main_configPath_outcome (st : State) (w : W) :
  outcome (run env (main_configPath st) w)
  = Returned (if decide ((env (Getenv "CONFIG_PATH") w).1 ≠ EmptyString)
              then set_configPath (env (Getenv "CONFIG_PATH") w).1 st
              else st).
Proof.
  unfold main_configPath, outcome. run_head. ask env.
  destruct (decide (r ≠ EmptyString)) as [Hset|Hunset]; run_head.
  - ask env. by rewrite decide_True.
  - by rewrite decide_False.
Qed.

Lemma main_initModTime_outcome (st : State) (w : W) :
  outcome (run env (main_initModTime st) w)
  = Returned match (env (Stat (configPath st)) w).1 with
             | Ok fileInfo => set_lastModTime (ModTime fileInfo) st
             | Err _ => st
             end.
Proof.
  unfold main_initModTime, outcome. run_head.
  by destruct (env (Stat _) w) as [[fileInfo|e] w1].
Qed.

(** The state [main] starts serving with. *)
Lemma main_init_outcome (st : State) (w : W) :
  ∃ (wl ws : W) (config : Config),
    let st1 := if decide ((env (Getenv "CONFIG_PATH") w).1 ≠ EmptyString)
               then set_configPath (env (Getenv "CONFIG_PATH") w).1 st
               else st in
    match outcome (run env (loadConfig Unmarshal (configPath st1)) wl) with
    | Returned (Ok loaded) => config = loaded
    | Returned (Err _) => config = fallbackConfig
    | Exited _ => False
    end ∧
    outcome (run env (main_init Unmarshal st) w)
    = Returned
        (set_serviceStatus (updateServiceMetrics config (serviceStatus st))
           match (env (Stat (configPath st1)) ws).1 with
           | Ok fileInfo => set_lastModTime (ModTime fileInfo) st1
           | Err _ => st1
           end).
Proof.
  cbv zeta.
  pose proof (main_configPath_outcome st w) as Hst1.
  destruct (main_configPath_run env st w) as (st1 & w1 & tr1 & E1 & Hf1 & _).
  rewrite E1 in Hst1. unfold outcome in Hst1. cbn [fst] in Hst1.
  injection Hst1 as Hst1.
  destruct (main_ensureDir_run env st1 w1) as (w2 & tr2 & E2 & _).
  destruct (main_ensureFile_run env st1 w2) as (w3 & tr3 & E3 & _).
  destruct (main_initialLoad_run Unmarshal env st1 w3) as (config & w4 & tr4 & E4 & Hcfg).
  pose proof (main_initModTime_outcome st1 w4) as Hst2.
  destruct (main_initModTime_run env st1 w4) as (st2 & w5 & tr5 & E5 & Hf2).
  rewrite E5 in Hst2. unfold outcome in Hst2. cbn [fst] in Hst2.
  injection Hst2 as Hst2.
  assert (outcome (run env (main_init Unmarshal st) w)
          = Returned (set_serviceStatus
                        (updateServiceMetrics config (serviceStatus st)) st2))
    as Hout.
  { unfold main_init.
    rewrite run_bind, E1. rewrite run_bind, E2. rewrite run_bind, E3.
    rewrite run_bind, E4. rewrite run_bind, E5. rewrite run_ret.
    unfold outcome. cbn [fst].
    assert (serviceStatus st2 = serviceStatus st) as ->; [|done].
    rewrite Hf2, Hf1. done. }
  clear Hf1 Hf2. exists w3, w4, config. subst st2 st1.
  split; [exact Hcfg | exact Hout].
Qed.

(** X15: when the config file is there but cannot be loaded, [main]
    starts with the hard-coded roster and still records the file's
    modification time; the watcher then sees no change, so the file is not
    opened again for as long as its modification time stays the same. *)
Theorem main_init_failed_load_not_retried (st : State) (fileInfo : FileInfo) :
  (∀ name w, (env (Stat name) w).1 = Ok fileInfo) →
  (∀ path w, ∃ err, outcome (run env (loadConfig Unmarshal path) w)
                    = Returned (Err err)) →
  ∀ w, ∃ st',
    outcome (run env (main_init Unmarshal st) w) = Returned st' ∧
    serviceStatus st' = updateServiceMetrics fallbackConfig (serviceStatus st) ∧
    lastModTime st' = ModTime fileInfo ∧
    ∀ n w',
      outcome (run env (watchConfig_loop Unmarshal n st') w') = Returned st' ∧
      count_opens (trace (run env (watchConfig_loop Unmarshal n st') w')) = 0%nat.
Proof.
  intros Hstat Hfail w.
  destruct (main_init_outcome st w) as (wl & ws & config & Hcfg & Hout).
  cbv zeta in *. rewrite Hstat in Hout.
  destruct (Hfail (configPath
                     (if decide ((env (Getenv "CONFIG_PATH") w).1 ≠ EmptyString)
                      then set_configPath (env (Getenv "CONFIG_PATH") w).1 st
                      else st)) wl) as [err Herr].
  rewrite Herr in Hcfg. subst config.
  eexists. split; [exact Hout|]. split; [done|]. split; [done|].
  intros n w'. apply (watchConfig_loop_quiet Unmarshal env _ fileInfo); [|done].
  intros w0. apply Hstat.
Qed.

(** X16: startup takes the config path from [CONFIG_PATH] when that is
    not empty and keeps the built-in path otherwise; it leaves the
    counter, the histogram and the two plain gauges as they were. *)
Theorem main_init_configPath (st : State) (w : W) :
  ∃ st',
    outcome (run env (main_init Unmarshal st) w) = Returned st' ∧
    configPath st'
    = (if decide ((env (Getenv "CONFIG_PATH") w).1 ≠ EmptyString)
       then (env (Getenv "CONFIG_PATH") w).1
       else configPath st) ∧
    requestsProcessed st' = requestsProcessed st ∧
    requestDuration st' = requestDuration st ∧
    activeRequests st' = activeRequests st ∧
    errorRate st' = errorRate st.
Proof.
  destruct (main_init_outcome st w) as (wl & ws & config & _ & Hout).
  cbv zeta in Hout. eexists. split; [exact Hout|].
  destruct (env (Stat _) ws).1;
    destruct (decide ((env (Getenv "CONFIG_PATH") w).1 ≠ EmptyString)); done.
Qed.

(** X17: [main] finishes startup before it starts the watcher, registers
    the three handlers and starts the load simulator, in that order, and
    then serves; the process ends with status 1, and only after
    [http.ListenAndServe] has returned. *)
Theorem main_calls (st : State) (w : W) :
  ∃ err,
    outcome (run env (main Unmarshal st) w) = Exited 1 ∧
    calls (trace (run env (main Unmarshal st) w))
    = (calls (trace (run env (main_init Unmarshal st) w))
       ++ [Go watchConfig_go; Handle "/"; Handle "/config"; Handle "/metrics";
           Go loadSimulator_go; Println "Starting Service Monitor on :8080";
           ListenAndServe ":8080"; Printf "%v" [AError err]])%list.
Proof.
  unfold main. rewrite run_bind.
  destruct (main_init_run Unmarshal env st w) as (st' & _ & _ & _ & Hout & _).
  destruct (run env (main_init Unmarshal st) w) as [[o w1] tr].
  unfold outcome in Hout. cbn [fst] in Hout. subst o.
  run_head. repeat ask env. unfold outcome, trace. cbn [fst snd].
  exists r5. split; [done|]. by rewrite calls_app.
Qed.

End StartupState.

Lemma main_init_failed_load_not_retried_witness :
  ∃ st',
    outcome (run Denied.env (main_init Toml.Unmarshal initState) tt) = Returned st' ∧
    serviceStatus st' = updateServiceMetrics fallbackConfig ∅ ∧
    lastModTime st' = Denied.changed ∧
    ∀ n w',
      outcome (run Denied.env (watchConfig_loop Toml.Unmarshal n st') w')
      = Returned st' ∧
      count_opens (trace (run Denied.env (watchConfig_loop Toml.Unmarshal n st') w'))
      = 0%nat.
Proof.
  apply (main_init_failed_load_not_retried Toml.Unmarshal Denied.env initState
           (mkFileInfo Denied.changed)).
  - intros name w. reflexivity.
  - intros path w. eexists. reflexivity.
Defined.

(** ** Further properties of the handlers *)

(** X18: the sleep of the health handler is shorter than half a second
    and not negative, for a draw in the range of [rand.Float64]: on the
    exact product, and on the product as the code computes it, rounded
    twice, for every draw up to 1 - 2^-53, the largest double below 1. *)
Theorem processing_time_bound (r : Q) :
  (0 <= r)%Q → (r < 1)%Q →
  (0 ≤ Duration_of_float (r * (5 # 10) * inject_Z Second) < 500000000)%Z ∧
  ((r <= 9007199254740991 # 9007199254740992)%Q →
   (0 ≤ Duration_of_float (fmul (fmul r (5 # 10)) (float64_of_int Second))
    < 500000000)%Z).
Proof.
  intros H0 H1. split.
  - destruct r as [a b]. unfold Qle, Qlt, Duration_of_float, Second in *.
    simpl in *. rewrite Z.mul_1_r in H0, H1.
    rewrite Z.quot_div_nonneg by lia. split.
    + apply Z.div_pos; lia.
    + apply Z.div_lt_upper_bound; lia.
  - intros Hmax.
    assert (0 <= float64_of_int Second)%Q as HS by (vm_compute; discriminate).
    apply (Duration_of_float_bound _
             (fmul (fmul (9007199254740991 # 9007199254740992) (5 # 10))
                (float64_of_int Second))).
    + unfold fmul at 1. apply round64_nonneg. apply Qmult_le_0_compat; [|done].
      unfold fmul. apply round64_nonneg. apply Qmult_le_0_compat; [done|].
      vm_compute. discriminate.
    + apply fmul_mono; [done|]. apply fmul_mono; [|done]. vm_compute. discriminate.
    + vm_compute. reflexivity.
Qed.

Lemma processing_time_bound_witness :
  (0 ≤ Duration_of_float ((3 # 10) * (5 # 10) * inject_Z Second) < 500000000)%Z ∧
  (0 ≤ Duration_of_float (fmul (fmul (3 # 10) (5 # 10)) (float64_of_int Second))
   < 500000000)%Z.
Proof.
  destruct (processing_time_bound (3 # 10)) as [Hexact Hrounded].
  - vm_compute. discriminate.
  - vm_compute. reflexivity.
  - split; [exact Hexact|]. apply Hrounded. vm_compute. discriminate.
Defined.

(** X19: [Seconds] of a duration that is not negative is within one part
    in 2^52 (and a little) of the duration divided by 10^9: the quotient
    of the nanoseconds and the sum are each rounded once. *)
Theorem Seconds_error (d : Z) :
  (0 ≤ d < 2 ^ 63)%Z →
  (Qabs (Seconds d - (d # 1000000000))
   <= (d # 1000000000) * ((1 # 2 ^ 52) + (1 # 2 ^ 106)))%Q.
Proof.
  intros Hd. unfold Seconds, Second, float64_of_int, fadd, fdiv.
  rewrite Z.quot_div_nonneg, Z.rem_mod_nonneg by lia.
  pose proof (Z.div_mod d 1000000000 ltac:(lia)) as Hdm.
  pose proof (Z.mod_pos_bound d 1000000000 ltac:(lia)) as Hns.
  assert (0 ≤ d / 1000000000 < 2 ^ 53)%Z as Hsec.
  { split; [apply Z.div_pos; lia|]. apply Z.div_lt_upper_bound; lia. }
  set (sec := (d / 1000000000)%Z) in *. set (nsec := (d mod 1000000000)%Z) in *.
  rewrite !round64_int by lia.
  set (t := (inject_Z nsec / 1000000000)%Q).
  assert (d # 1000000000 == inject_Z sec + t)%Q as ->.
  { subst t. unfold Qeq, Qdiv, Qmult, Qplus, Qinv, inject_Z. cbn [Qnum Qden].
    simpl. lia. }
  assert (0 <= t)%Q as Ht0.
  { subst t. unfold Qle, Qdiv, Qmult, Qinv, inject_Z. simpl. lia. }
  assert (Qabs (round64 t - t) <= t * (1 # 2 ^ 53))%Q as Hf.
  { destruct (Z.eq_dec nsec 0%Z) as [E|E].
    - subst t. rewrite E. vm_compute. discriminate.
    - apply round64_error. subst t.
      apply Qle_trans with (1 # 1000000000)%Q; [vm_compute; discriminate|].
      unfold Qle, Qdiv, Qmult, Qinv, inject_Z. simpl. lia. }
  apply Qabs_Qle_condition in Hf as [Hf1 Hf2].
  set (f := round64 t) in *.
  assert (0 <= inject_Z sec)%Q as Hs0.
  { unfold Qle, inject_Z. simpl. lia. }
  destruct (Z.eq_dec d 0%Z) as [E|E].
  { assert (nsec = 0%Z) as En by (subst nsec; rewrite E; reflexivity).
    assert (sec = 0%Z) as Es by (subst sec; rewrite E; reflexivity).
    subst f t. rewrite En, Es. vm_compute. discriminate. }
  assert (Qabs (round64 (inject_Z sec + f) - (inject_Z sec + f))
          <= (inject_Z sec + f) * (1 # 2 ^ 53))%Q as Hr.
  { apply round64_error.
    destruct (Z.eq_dec sec 0%Z) as [Es|Es].
    - assert (1 # 1000000000 <= t)%Q.
      { subst t. unfold Qle, Qdiv, Qmult, Qinv, inject_Z. simpl. lia. }
      rewrite Es.
      apply Qle_trans with ((1 # 1000000000) * (1 - (1 # 2 ^ 53)))%Q;
        [vm_compute; discriminate|].
      change (inject_Z 0) with 0%Q.
      change (2 ^ 53)%positive with 9007199254740992%positive in *. lra.
    - assert (1 <= inject_Z sec)%Q by (unfold Qle, inject_Z; simpl; lia).
      apply Qle_trans with 1%Q; [vm_compute; discriminate|].
      change (2 ^ 53)%positive with 9007199254740992%positive in *. lra. }
  apply Qabs_Qle_condition in Hr as [Hr1 Hr2].
  set (res := round64 (inject_Z sec + f)) in *.
  apply Qabs_Qle_condition.
  assert ((1 # 2 ^ 106) == (1 # 2 ^ 53) * (1 # 2 ^ 53))%Q as -> by reflexivity.
  assert ((1 # 2 ^ 52) == 2 * (1 # 2 ^ 53))%Q as -> by reflexivity.
  change (2 ^ 53)%positive with 9007199254740992%positive in *.
  set (eps := (1 # 9007199254740992)%Q) in *.
  assert (0 <= eps)%Q as He by (vm_compute; discriminate).
  assert (0 <= t * eps)%Q by (apply Qmult_le_0_compat; assumption).
  assert (0 <= inject_Z sec * eps)%Q by (apply Qmult_le_0_compat; assumption).
  assert (0 <= t * eps * eps)%Q by (apply Qmult_le_0_compat; assumption).
  assert (0 <= inject_Z sec * eps * eps)%Q by (apply Qmult_le_0_compat; assumption).
  assert ((f - t) * eps <= t * eps * eps)%Q.
  { apply Qmult_le_compat_r; assumption. }
  split; lra.
Qed.

Lemma Seconds_error_witness :
  (Qabs (Seconds 1 - (1 # 1000000000))
   <= (1 # 1000000000) * ((1 # 2 ^ 52) + (1 # 2 ^ 106)))%Q.
Proof.
  apply (Seconds_error 1). split; [discriminate|reflexivity].
Defined.

(** X26: [Seconds] keeps the order of durations that are not negative,
    and is itself not negative: a longer request is never observed as a
    shorter one. *)
Theorem Seconds_mono (d d' : Z) :
  (0 ≤ d)%Z → (d ≤ d')%Z → (d' < 2 ^ 63)%Z →
  (0 <= Seconds d)%Q ∧ (Seconds d <= Seconds d')%Q.
Proof.
  intros H0 Hle Hmax. unfold Seconds, Second, float64_of_int, fadd, fdiv.
  rewrite !Z.quot_div_nonneg, !Z.rem_mod_nonneg by lia.
  pose proof (Z.div_mod d 1000000000 ltac:(lia)) as Hdm.
  pose proof (Z.div_mod d' 1000000000 ltac:(lia)) as Hdm'.
  pose proof (Z.mod_pos_bound d 1000000000 ltac:(lia)) as Hns.
  pose proof (Z.mod_pos_bound d' 1000000000 ltac:(lia)) as Hns'.
  assert (0 ≤ d / 1000000000)%Z as Hsec0 by (apply Z.div_pos; lia).
  assert (d / 1000000000 ≤ d' / 1000000000)%Z as Hsec
    by (apply Z.div_le_mono; lia).
  assert (d' / 1000000000 < 2 ^ 53)%Z as Hsec'
    by (apply Z.div_lt_upper_bound; lia).
  set (sec := (d / 1000000000)%Z) in *. set (nsec := (d mod 1000000000)%Z) in *.
  set (sec' := (d' / 1000000000)%Z) in *.
  set (nsec' := (d' mod 1000000000)%Z) in *.
  rewrite !round64_int by lia.
  set (t := (inject_Z nsec / 1000000000)%Q).
  set (t' := (inject_Z nsec' / 1000000000)%Q).
  assert (0 <= t)%Q as Ht0.
  { subst t. unfold Qle, Qdiv, Qmult, Qinv, inject_Z. simpl. lia. }
  assert (0 <= t')%Q as Ht0'.
  { subst t'. unfold Qle, Qdiv, Qmult, Qinv, inject_Z. simpl. lia. }
  assert (t <= 1)%Q as Ht1.
  { subst t. unfold Qle, Qdiv, Qmult, Qinv, inject_Z. simpl. lia. }
  pose proof (round64_nonneg t Ht0) as Hf0.
  pose proof (round64_nonneg t' Ht0') as Hf0'.
  pose proof (round64_mono t 1 Ht1) as Hf1.
  change (round64 1) with 1%Q in Hf1.
  assert (0 <= inject_Z sec)%Q as Hs0 by (unfold Qle, inject_Z; simpl; lia).
  split.
  - apply round64_nonneg. lra.
  - apply round64_mono.
    destruct (Z.eq_dec sec sec') as [<-|Hne].
    + assert (t <= t')%Q as Htt.
      { subst t t'. unfold Qle, Qdiv, Qmult, Qinv, inject_Z. simpl. lia. }
      pose proof (round64_mono t t' Htt). lra.
    + assert (inject_Z sec + 1 <= inject_Z sec')%Q
        by (unfold Qle, Qplus, inject_Z; simpl; lia).
      lra.
Qed.

Lemma Seconds_mono_witness :
  (0 <= Seconds 149999999)%Q ∧ (Seconds 149999999 <= Seconds 150000000)%Q.
Proof.
  apply (Seconds_mono 149999999 150000000).
  - discriminate.
  - discriminate.
  - reflexivity.
Defined.

Section HealthMore.

Context {W : Type} (env : Env W).

(** X20: the health handler reads the clock on entry and at return,
    draws twice and sleeps once in between, for the first draw times 0.5
    times 10^9 nanoseconds, each product rounded to binary64 and the
    result truncated; what the histogram observes is [Seconds] of the
    time between the two clock readings. *)
Theorem healthHandler_calls (st : State) (rw : ResponseWriter) (w : W) :
  ∃ (t1 t2 : Z) (r1 r2 : Q) (st' : State) (rw' : ResponseWriter),
    outcome (run env (healthHandler st rw) w) = Returned (st', rw') ∧
    nows (trace (run env (healthHandler st rw) w)) = [t1; t2] ∧
    draws (trace (run env (healthHandler st rw) w)) = [r1; r2] ∧
    calls (trace (run env (healthHandler st rw) w))
    = [Now; Float64;
       Sleep (Duration_of_float
                (fmul (fmul r1 (5 # 10)) (float64_of_int Second)));
       Float64; Now] ∧
    requestDuration st' = Observe (Seconds (t2 - t1)) (requestDuration st).
Proof.
  unfold healthHandler, health_body, health_deferred_observe,
    rand_Float64, time_Now, outcome, trace.
  run_head. ask env. ask env. ask env. ask env.
  destruct (Qlt_le_dec r2 (1 # 10)); run_head; ask env;
    do 6 eexists; repeat split; reflexivity.
Qed.

(** X21: the health handler leaves the service gauge, [lastModTime] and
    the config path as they were, and it appends exactly one of its two
    bodies to the response, with the error-rate gauge set to match. *)
Theorem healthHandler_frame (st : State) (rw : ResponseWriter) (w : W) :
  ∃ (st' : State) (rw' : ResponseWriter),
    outcome (run env (healthHandler st rw) w) = Returned (st', rw') ∧
    serviceStatus st' = serviceStatus st ∧
    lastModTime st' = lastModTime st ∧
    configPath st' = configPath st ∧
    ((errorRate st' = 0%Q ∧ body rw' = body rw ++ "Service Monitor is running!")
     ∨ (errorRate st' = (1 # 10)%Q ∧ body rw' = body rw ++ "Internal Server Error")).
Proof.
  unfold healthHandler, health_body, health_deferred_observe,
    rand_Float64, time_Now, outcome.
  run_head. ask env. ask env. ask env. ask env.
  destruct (Qlt_le_dec r2 (1 # 10)); run_head; ask env; do 2 eexists;
    (split; [done|]); repeat (split; [done|]).
  - right. split; [done|]. by destruct rw as [[] code data].
  - left. split; [done|]. by destruct rw as [[] code data].
Qed.

(** One turn of the load simulator sets the active-request gauge to ten
    times its draw, whatever the gauge held. *)
Lemma loadSimulator_iter_outcome (st : State) (w : W) :
  ∃ r, draws (trace (run env (loadSimulator_iter st) w)) = [r] ∧
       outcome (run env (loadSimulator_iter st) w)
       = Returned (set_activeRequests (fmul r 10) st).
Proof.
  unfold loadSimulator_iter, rand_Float64, outcome, trace.
  run_head. ask env. ask env. by eexists.
Qed.

End HealthMore.

Lemma string_app_nil_r (s : string) : s ++ EmptyString = s.
Proof.
  induction s as [|a s IH]; [done|].
  change (String a (s ++ EmptyString) = String a s). by rewrite IH.
Qed.

Lemma string_app_assoc (s1 s2 s3 : string) : (s1 ++ s2) ++ s3 = s1 ++ s2 ++ s3.
Proof.
  induction s1 as [|a s1 IH]; [done|].
  change (String a ((s1 ++ s2) ++ s3) = String a (s1 ++ s2 ++ s3)). by rewrite IH.
Qed.

Section ConfigDumpMore.

Context {W : Type} (Unmarshal : string → result GoError Config)
  (Sprintf : string → list Arg → string) (env : Env W).

Lemma concat_cons (x : string) (xs : list string) :
  String.concat EmptyString (x :: xs) = x ++ String.concat EmptyString xs.
Proof. destruct xs; [by rewrite string_app_nil_r | done]. Qed.

Lemma Fprintf_body (rw : ResponseWriter) (format : string) (args : list Arg) :
  body (Fprintf Sprintf rw format args) = body rw ++ Sprintf format args.
Proof. by destruct rw as [[] code data]. Qed.

Lemma Fprintf_lines_body (lines : list string) (rw : ResponseWriter) :
  body (fold_left (fun w svc => Fprintf Sprintf w ("- %s" ++ nl) [AString svc]) lines rw)
  = body rw
    ++ String.concat EmptyString
         (map (fun svc => Sprintf ("- %s" ++ nl) [AString svc]) lines).
Proof.
  revert rw. induction lines as [|svc lines IH]; intros rw.
  - cbn. by rewrite string_app_nil_r.
  - cbn [fold_left map]. rewrite IH, Fprintf_body, concat_cons.
    by rewrite string_app_assoc.
Qed.

Lemma Fprintf_lines_status (lines : list string) (rw : ResponseWriter) :
  wroteHeader rw = true →
  wroteHeader (fold_left (fun w svc => Fprintf Sprintf w ("- %s" ++ nl) [AString svc]) lines rw)
  = true ∧
  status (fold_left (fun w svc => Fprintf Sprintf w ("- %s" ++ nl) [AString svc]) lines rw)
  = status rw.
Proof.
  revert rw. induction lines as [|svc lines IH]; intros rw Hrw; [done|].
  cbn [fold_left]. destruct (IH (Fprintf Sprintf rw ("- %s" ++ nl) [AString svc])) as [-> ->].
  - unfold Fprintf, Write. by rewrite Hrw.
  - unfold Fprintf, Write. by rewrite Hrw.
Qed.

(** X22: the listing of a roster is, after what the response already
    held, the header of the up list, one line per up service in the order
    of the list, the header of the down list and one line per down
    service; on a fresh response it goes out with status 200, also for an
    empty roster. *)
Theorem dump_body (config : Config) (rw : ResponseWriter) :
  body (dump Sprintf config rw)
  = body rw
    ++ Sprintf ("UP SERVICES (%d):" ++ nl)
         [AInt (Z.of_nat (length (UpServices config)))]
    ++ String.concat EmptyString
         (map (fun svc => Sprintf ("- %s" ++ nl) [AString svc]) (UpServices config))
    ++ Sprintf (nl ++ "DOWN SERVICES (%d):" ++ nl)
         [AInt (Z.of_nat (length (DownServices config)))]
    ++ String.concat EmptyString
         (map (fun svc => Sprintf ("- %s" ++ nl) [AString svc]) (DownServices config))
  ∧ status (dump Sprintf config newResponseWriter) = 200%Z.
Proof.
  unfold dump. split.
  - rewrite Fprintf_lines_body, Fprintf_body, Fprintf_lines_body, Fprintf_body.
    by rewrite !string_app_assoc.
  - set (rw1 := Fprintf Sprintf newResponseWriter _ _).
    assert (wroteHeader rw1 = true ∧ status rw1 = 200%Z) as [Hw Hs] by done.
    destruct (Fprintf_lines_status (UpServices config) rw1 Hw) as [Hw2 Hs2].
    set (rw2 := fold_left _ (UpServices config) rw1) in *.
    set (rw3 := Fprintf Sprintf rw2 _ _).
    assert (wroteHeader rw3 = true ∧ status rw3 = status rw2) as [Hw3 Hs3].
    { unfold rw3, Fprintf, Write. by rewrite Hw2. }
    destruct (Fprintf_lines_status (DownServices config) rw3 Hw3) as [_ ->].
    congruence.
Qed.

(** X23: the handler of [/config] loads the file itself, between taking
    and releasing the read lock, and releases it on both paths; a failed
    load answers 500 with the error text, a loaded roster is listed. *)
Theorem configHandler_response (st : State) (w : W) :
  ∃ rw',
    outcome (run env (configHandler Unmarshal Sprintf st newResponseWriter) w)
    = Returned rw' ∧
    calls (trace (run env (configHandler Unmarshal Sprintf st newResponseWriter) w))
    = (RLock :: calls (trace (run env (loadConfig Unmarshal (configPath st))
                                (env RLock w).2))
         ++ [RUnlock])%list ∧
    match outcome (run env (loadConfig Unmarshal (configPath st)) (env RLock w).2) with
    | Returned (Ok config) => rw' = dump Sprintf config newResponseWriter
    | Returned (Err err) =>
        status rw' = 500%Z ∧
        body rw' = Sprintf "Error loading config: %v" [AError err]
    | Exited _ => False
    end.
Proof.
  unfold configHandler. run_head.
  destruct (env RLock w) as [[] w1]; cbn [fst snd]. rewrite run_bind.
  destruct (loadConfig_returns Unmarshal env (configPath st) w1) as [res Hres].
  destruct (run env (loadConfig Unmarshal (configPath st)) w1) as [[o w2] tr].
  unfold outcome, trace in *. cbn [fst snd] in *. subst o.
  run_head. ask env. eexists. split; [done|]. split.
  { unfold calls. cbn. by rewrite map_app. }
  by destruct res.
Qed.

End ConfigDumpMore.

(** ** Further properties of the histogram *)

Lemma SearchFloat64s_past (a : list Q) (x : Q) :
  Forall (fun b => (b < x)%Q) a → SearchFloat64s a x = length a.
Proof.
  induction 1 as [|b a Hb _ IH]; [done|]. simpl.
  destruct (Qle_bool x b) eqn:Hle; [|by rewrite IH].
  apply Qle_bool_iff in Hle. exfalso. by apply (Qlt_not_le b x).
Qed.

Lemma alter_past (l : list nat) (i : nat) :
  (length l ≤ i)%nat → alter S i l = l.
Proof.
  intros Hi. apply list_eq. intros j.
  destruct (decide (i = j)) as [<-|Hne].
  - rewrite list_lookup_alter_eq. by rewrite (lookup_ge_None_2 l i).
  - by rewrite list_lookup_alter_ne.
Qed.

(** X25: a duration above 0.46 s, and so above the last bound of the
    configured buckets, is counted by the histogram but in none of its
    ten buckets. *)
Theorem Observe_past_last_bucket (h : Histogram) (d : Q) :
  upperBounds h = default [] requestDuration_Buckets →
  (length (bucketCounts h) ≤ 10)%nat →
  (46 # 100 < d)%Q →
  bucketCounts (Observe d h) = bucketCounts h ∧
  sampleCount (Observe d h) = S (sampleCount h).
Proof.
  intros Hbounds Hlen Hd. unfold Observe. cbn [bucketCounts sampleCount].
  split; [|done]. rewrite Hbounds, SearchFloat64s_past.
  - apply alter_past. exact Hlen.
  - repeat constructor;
      (eapply Qle_lt_trans; [|exact Hd]); vm_compute; discriminate.
Qed.

Lemma Observe_past_last_bucket_witness :
  bucketCounts (Observe (1 # 2) (requestDuration initState))
  = bucketCounts (requestDuration initState) ∧
  sampleCount (Observe (1 # 2) (requestDuration initState)) = 1%nat.
Proof.
  apply (Observe_past_last_bucket (requestDuration initState) (1 # 2)).
  - reflexivity.
  - vm_compute. lia.
  - vm_compute. reflexivity.
Defined.

Lemma LinearBuckets_loop_grows
  (count : nat) (start width : Q) (i : nat) (b b' : Q) :
  (round64 start == start)%Q → (0 <= width)%Q →
  LinearBuckets_loop start width count !! i = Some b →
  LinearBuckets_loop start width count !! S i = Some b' →
  (b <= b')%Q.
Proof.
  revert start i. induction count as [|n IH]; intros start i Hs Hw; [done|].
  destruct i as [|i]; cbn [LinearBuckets_loop lookup list_lookup].
  - intros [= <-]. destruct n as [|n]; [done|]. intros [= <-].
    by apply fadd_grows.
  - apply IH; [|done]. apply round64_idem.
Qed.

(** X24: for a start that is a double and a width that is not negative,
    the bounds [LinearBuckets] builds never decrease with the index. *)
Theorem LinearBuckets_nondecreasing
  (start width : Q) (count : Z) (bs : list Q) (i : nat) (b b' : Q) :
  (round64 start == start)%Q → (0 <= width)%Q →
  LinearBuckets start width count = Some bs →
  bs !! i = Some b → bs !! S i = Some b' →
  (b <= b')%Q.
Proof.
  intros Hs Hw. unfold LinearBuckets.
  destruct (count <? 1)%Z; [done|]. intros [= <-].
  by apply LinearBuckets_loop_grows.
Qed.

Lemma LinearBuckets_nondecreasing_witness :
  (f64 (1 # 100) <= fadd (f64 (1 # 100)) (f64 (5 # 100)))%Q.
Proof.
  apply (LinearBuckets_nondecreasing (f64 (1 # 100)) (f64 (5 # 100)) 10
           (default [] requestDuration_Buckets) 0).
  - vm_compute. reflexivity.
  - vm_compute. discriminate.
  - reflexivity.
  - reflexivity.
  - reflexivity.
Defined.

(** They can stall: from 10^17 a width of 1 is lost in the rounding. *)
Example LinearBuckets_stall :
  LinearBuckets 100000000000000000 1 3
  = Some [100000000000000000%Q; 100000000000000000%Q; 100000000000000000%Q].
Proof. vm_compute. reflexivity. Qed.
